(** * The PreToolUse safety hook ([core/hooks/safe-operations.py])

    A shallow embedding of the hook's decision procedure and the proofs of
    its documented properties.

    Modelling conventions.
    - A Python [str] is a [string]; the characters the hook inspects are
      those of the 7-bit range, and the classes [\s], [\w] and the case
      folding of [re.IGNORECASE] are modelled on that range.
    - The library functions the hook calls ([os.path.expanduser],
      [os.path.abspath], [re.search], [re.finditer]) are modelled after
      CPython's [posixpath] and [re].
    - The process environment the hook reads ([os.environ], the password
      database, the working directory) is a record [Env] passed explicitly.
    - A Python exception is a value [Raise e] of the type [result]; a
      [try ... except Exception] block is the combinator [try_except].
    - A request is the decoded envelope; its tool name, path, command and
      working-directory hint are strings when present. *)

From Stdlib Require Import Bool Arith Lia List Ascii String.
Import ListNotations.
Open Scope string_scope.

(** ** Exceptions *)

(** The one exception the modelled calls raise on text of the 7-bit range:
    the [ValueError] of a user lookup whose name holds a null character.
    Text beyond that range is not modelled: there the lookup of a name
    that cannot be encoded raises [UnicodeEncodeError] as well. *)
Inductive exn : Type :=
| ValueError.

Inductive result (A : Type) : Type :=
| Ok (a : A)
| Raise (e : exn).

Arguments Ok {A} a.
Arguments Raise {A} e.

Definition bind {A B : Type} (m : result A) (f : A -> result B) : result B :=
  match m with
  | Ok a => f a
  | Raise e => Raise e
  end.

Notation "x <- m ;; k" := (bind m (fun x => k))
  (at level 61, m at next level, right associativity).

(** [try: body except Exception: handler] *)
Definition try_except {A : Type} (body : result A) (handler : A) : A :=
  match body with
  | Ok a => a
  | Raise _ => handler
  end.

(** ** Python string operations *)

Module Py.

Definition sep : ascii := "/"%char.
Definition nul : ascii := "000"%char.
Definition newline : string := String "010"%char "".

(** [s.startswith(p)] *)
Definition startswith (s p : string) : bool := String.prefix p s.

(** [s.endswith(c)] for a one-character [c]. *)
Fixpoint endswith (s : string) (c : ascii) : bool :=
  match s with
  | "" => false
  | String a "" => Ascii.eqb a c
  | String _ s' => endswith s' c
  end.

(** [s.split(c)]: the pieces between the occurrences of [c], empty pieces
    included. *)
Fixpoint split (c : ascii) (s : string) : list string :=
  match s with
  | "" => [""]
  | String a s' =>
      if Ascii.eqb a c then "" :: split c s'
      else match split c s' with
           | [] => [String a ""]
           | w :: ws => String a w :: ws
           end
  end.

(** [c.join(l)] *)
Fixpoint join (c : string) (l : list string) : string :=
  match l with
  | [] => ""
  | [w] => w
  | w :: ws => w ++ c ++ join c ws
  end.

(** [s.rstrip(c)] for a one-character [c]. *)
Fixpoint rstrip (c : ascii) (s : string) : string :=
  match s with
  | "" => ""
  | String a s' =>
      match rstrip c s' with
      | "" => if Ascii.eqb a c then "" else String a ""
      | t => String a t
      end
  end.

(** [s.find(c, start)]: the index of the first [c] at or after [start]. *)
Fixpoint find_from (c : ascii) (s : string) (start pos : nat) : option nat :=
  match s with
  | "" => None
  | String a s' =>
      if Nat.leb start pos && Ascii.eqb a c then Some pos
      else find_from c s' start (S pos)
  end.

Definition find (c : ascii) (s : string) (start : nat) : option nat :=
  find_from c s start 0.

(** [s[i:j]] and [s[i:]] for indices within bounds. *)
Definition slice (s : string) (i j : nat) : string := substring i (j - i) s.
Definition slice_from (s : string) (i : nat) : string :=
  substring i (String.length s - i) s.

Fixpoint contains (c : ascii) (s : string) : bool :=
  match s with
  | "" => false
  | String a s' => Ascii.eqb a c || contains c s'
  end.

(** [x or y] on strings: the empty string is false. *)
Definition str_or (x y : string) : string :=
  if String.eqb x "" then y else x.

End Py.

(** ** The process environment *)

Record Env : Type := {
  (** [os.environ.get(name)] *)
  environ : string -> option string;
  (** [pwd.getpwuid(os.getuid()).pw_dir]; [None] when the lookup raises
      [KeyError]. *)
  pw_uid_dir : option string;
  (** [pwd.getpwnam(name).pw_dir]; [None] when the lookup raises [KeyError]. *)
  pw_nam_dir : string -> option string;
  (** [os.getcwd()]; the process has a working directory. *)
  getcwd : string
}.

(** ** [posixpath] *)

Module PosixPath.
Import Py.

Definition isabs (path : string) : bool := startswith path "/".

(** [os.path.join(a, b)] *)
Definition join2 (a b : string) : string :=
  if startswith b "/" then b
  else if String.eqb a "" || endswith a sep
       then a ++ b
       else a ++ "/" ++ b.

(** One round of the loop of [normpath] over the components. *)
Definition normpath_step (initial_slashes : nat) (new_comps : list string)
    (comp : string) : list string :=
  if String.eqb comp "" || String.eqb comp "." then new_comps
  else if negb (String.eqb comp "..")
          || (Nat.eqb initial_slashes 0 && match new_comps with [] => true | _ => false end)
          || match new_comps with
             | [] => false
             | _ => String.eqb (last new_comps "") ".."
             end
       then (new_comps ++ [comp])%list
       else match new_comps with
            | [] => new_comps
            | _ => removelast new_comps
            end.

Fixpoint repeat_sep (n : nat) : string :=
  match n with
  | 0 => ""
  | S n' => String sep (repeat_sep n')
  end.

(** [os.path.normpath(path)] *)
Definition normpath (path : string) : string :=
  if String.eqb path "" then "."
  else
    let initial_slashes :=
      if startswith path "/" then
        if startswith path "//" && negb (startswith path "///") then 2 else 1
      else 0 in
    let comps := split sep path in
    let new_comps := fold_left (normpath_step initial_slashes) comps [] in
    let path := join "/" new_comps in
    let path := repeat_sep initial_slashes ++ path in
    str_or path ".".

(** [os.path.abspath(path)] *)
Definition abspath (env : Env) (path : string) : string :=
  let path := if isabs path then path else join2 (getcwd env) path in
  normpath path.

(** [os.path.expanduser(path)].  The lookup of a named user raises
    [ValueError] when the name holds a null character.  This is the only
    raise on a path of the 7-bit range; a name that cannot be encoded (a
    lone surrogate) is beyond the model. *)
Definition expanduser (env : Env) (path : string) : result string :=
  if negb (startswith path "~") then Ok path
  else
    let i := match find sep path 1 with
             | Some i => i
             | None => String.length path
             end in
    let finish (userhome : string) : result string :=
      let userhome := rstrip sep userhome in
      Ok (str_or (userhome ++ slice_from path i) "/") in
    if Nat.eqb i 1 then
      match environ env "HOME" with
      | None =>
          match pw_uid_dir env with
          | None => Ok path
          | Some userhome => finish userhome
          end
      | Some userhome => finish userhome
      end
    else
      let name := slice path 1 i in
      if contains nul name then Raise ValueError
      else match pw_nam_dir env name with
           | None => Ok path
           | Some userhome => finish userhome
           end.

End PosixPath.

(** ** Path predicates of the hook *)

Definition PROTECTED_DIRECTORIES : list string :=
  [ "/etc"; "/usr"; "/var"; "/bin"; "/sbin"; "/lib"; "/lib64"; "/boot";
    "/sys"; "/proc"; "/dev"; "/root"; "/System"; "/Library"; "/Applications" ].

(** [os.environ.get('CLAUDE_PROJECT_DIR') or os.getcwd()]; [main] does not
    call it. *)
Definition get_project_root (env : Env) : string :=
  match environ env "CLAUDE_PROJECT_DIR" with
  | Some d => Py.str_or d (getcwd env)
  | None => getcwd env
  end.

(** [os.path.abspath(os.path.expanduser(file_path))] *)
Definition resolve (env : Env) (file_path : string) : result string :=
  p <- PosixPath.expanduser env file_path ;;
  Ok (PosixPath.abspath env p).

(** [os.environ.get('CLAUDE_CONFIG_DIR', '~/.claude')] *)
Definition claude_config_dir (env : Env) : string :=
  match environ env "CLAUDE_CONFIG_DIR" with
  | Some d => d
  | None => "~/.claude"
  end.

(** [p.startswith('/tmp/') or p.startswith('/private/tmp/')], the test the
    boundary check and both extractors apply. *)
Definition is_tmp (p : string) : bool :=
  Py.startswith p "/tmp/" || Py.startswith p "/private/tmp/".

Definition is_path_outside_project (env : Env) (file_path project_root : string)
  : bool :=
  try_except
    (abs_file <- resolve env file_path ;;
     let abs_project := PosixPath.abspath env project_root in
     claude_config_dir <- PosixPath.expanduser env (claude_config_dir env) ;;
     let abs_claude_config := PosixPath.abspath env claude_config_dir in
     if Py.startswith abs_file (abs_claude_config ++ "/")
        || String.eqb abs_file abs_claude_config
     then Ok false
     else if is_tmp abs_file then Ok false
     else Ok (negb (Py.startswith abs_file (abs_project ++ "/"))
              && negb (String.eqb abs_file abs_project)))
    false.

Definition protected_reason (protected_dir : string) : string :=
  "Cannot modify files in protected directory: " ++ protected_dir.

(** The loop of [is_protected_path] over the protected directories. *)
Fixpoint first_protected (abs_path : string) (dirs : list string)
  : bool * string :=
  match dirs with
  | [] => (false, "")
  | protected_dir :: dirs' =>
      if Py.startswith abs_path (protected_dir ++ "/")
         || String.eqb abs_path protected_dir
      then (true, protected_reason protected_dir)
      else first_protected abs_path dirs'
  end.

Definition is_protected_path (env : Env) (file_path : string) : bool * string :=
  try_except
    (abs_path <- resolve env file_path ;;
     Ok (first_protected abs_path PROTECTED_DIRECTORIES))
    (false, "").

(** ** Regular expressions ([re])

    The fragment of Python's pattern language the hook's tables use, with the
    matching order of Python's backtracking engine: alternatives are tried
    left to right, repetitions are greedy, and a match is the first one found
    at the leftmost position that has one. *)

Module Re.

Inductive item : Type :=
| IChar (c : ascii)
| IRange (lo hi : ascii)
| ISpace.

Inductive regex : Type :=
| Empty
| Lit (c : ascii)
| Dot                                         (* .   *)
| Space                                       (* \s  *)
| CharSet (negate : bool) (items : list item) (* [...] and [^...] *)
| WordBoundary                                (* \b  *)
| Cat (r1 r2 : regex)
| Alt (r1 r2 : regex)                         (* r1|r2 *)
| Star (r : regex)                            (* r*  *)
| Plus (r : regex)                            (* r+  *)
| Opt (r : regex)                             (* r?  *)
| Group (n : nat) (r : regex).                (* the n-th capturing group *)

(** *** Character classes *)

Definition code (c : ascii) : nat := nat_of_ascii c.

Definition between (lo hi : nat) (c : ascii) : bool :=
  Nat.leb lo (code c) && Nat.leb (code c) hi.

Definition is_upper (c : ascii) : bool := between 65 90 c.
Definition is_lower (c : ascii) : bool := between 97 122 c.
Definition is_digit (c : ascii) : bool := between 48 57 c.

Definition lower (c : ascii) : ascii :=
  if is_upper c then ascii_of_nat (code c + 32) else c.
Definition upper (c : ascii) : ascii :=
  if is_lower c then ascii_of_nat (code c - 32) else c.

(** [\s] on the 7-bit range: tab, line feed, vertical tab, form feed,
    carriage return, the four separators 28..31 and the space.  The
    patterns are [str] patterns compiled without [re.ASCII], so Python
    also counts the spaces beyond 127; characters beyond 127 are not
    modelled. *)
Definition is_space (c : ascii) : bool :=
  between 9 13 c || between 28 32 c.

(** [\w] on the 7-bit range: letters, digits and the underscore.  Python
    also counts the letters and digits beyond 127 (an accented letter is a
    word character, which moves [\b]); characters beyond 127 are not
    modelled. *)
Definition is_word (c : ascii) : bool :=
  is_upper c || is_lower c || is_digit c || Ascii.eqb c "_".

Definition in_item (a : ascii) (i : item) : bool :=
  match i with
  | IChar c => Ascii.eqb a c
  | IRange lo hi => between (code lo) (code hi) a
  | ISpace => is_space a
  end.

Definition in_items (a : ascii) (items : list item) : bool :=
  existsb (in_item a) items.

(** With [re.IGNORECASE] a character matches a literal when they agree up
    to case, and lies in a set when one of its case variants does.  Case
    is that of the 7-bit range: the few characters beyond 127 whose case
    folding is a 7-bit letter (the long s, the Kelvin sign, the dotted and
    dotless i) are not modelled. *)
Definition lit_matches (ignorecase : bool) (c a : ascii) : bool :=
  if ignorecase then Ascii.eqb (lower a) (lower c) else Ascii.eqb a c.

Definition set_matches (ignorecase negate : bool) (items : list item)
    (a : ascii) : bool :=
  xorb negate
    (in_items a items
     || (ignorecase && (in_items (lower a) items || in_items (upper a) items))).

(** *** Matcher state *)

Record mstate : Type := {
  before : option ascii;            (* the character left of the position *)
  rest : string;                    (* the text from the position on *)
  groups : list (nat * string)      (* the text of the groups closed so far *)
}.

Definition word_opt (o : option ascii) : bool :=
  match o with
  | Some c => is_word c
  | None => false
  end.

Definition next_char (s : string) : option ascii :=
  match s with
  | "" => None
  | String a _ => Some a
  end.

Definition at_boundary (st : mstate) : bool :=
  xorb (word_opt (before st)) (word_opt (next_char (rest st))).

(** Consume one character satisfying [p]. *)
Definition eat {A : Type} (p : ascii -> bool) (st : mstate)
    (k : mstate -> option A) : option A :=
  match rest st with
  | "" => None
  | String a s' =>
      if p a then k {| before := Some a; rest := s'; groups := groups st |}
      else None
  end.

Definition progress (st st' : mstate) : bool :=
  Nat.ltb (String.length (rest st')) (String.length (rest st)).

Fixpoint set_group (n : nat) (text : string) (gs : list (nat * string))
  : list (nat * string) :=
  match gs with
  | [] => [(n, text)]
  | (m, t) :: gs' =>
      if Nat.eqb m n then (n, text) :: gs' else (m, t) :: set_group n text gs'
  end.

Definition close_group (n : nat) (st st' : mstate) : mstate :=
  let len := String.length (rest st) - String.length (rest st') in
  {| before := before st';
     rest := rest st';
     groups := set_group n (substring 0 len (rest st)) (groups st') |}.

Definition or_else {A : Type} (x y : option A) : option A :=
  match x with
  | Some _ => x
  | None => y
  end.

(** *** Backtracking matcher

    [run r st k] matches [r] at [st] and hands each way of doing so, in
    priority order, to the continuation [k] until one succeeds.  A
    repetition is greedy and stops after an iteration that consumed
    nothing. *)
Section Run.
Variable ignorecase : bool.
Variable A : Type.

(** Zero or more rounds of [body], then [k]; [fuel] bounds the rounds by
    the length of the text left. *)
Fixpoint repeat_greedy (body : mstate -> (mstate -> option A) -> option A)
    (k : mstate -> option A) (fuel : nat) (st : mstate) : option A :=
  match fuel with
  | 0 => k st
  | S fuel' =>
      or_else
        (body st (fun st' =>
           if progress st st' then repeat_greedy body k fuel' st'
           else None))
        (k st)
  end.

Fixpoint run (r : regex) (st : mstate) (k : mstate -> option A)
  {struct r} : option A :=
  match r with
  | Empty => k st
  | Lit c => eat (lit_matches ignorecase c) st k
  | Dot => eat (fun a => negb (Ascii.eqb a "010")) st k
  | Space => eat is_space st k
  | CharSet negate items => eat (set_matches ignorecase negate items) st k
  | WordBoundary => if at_boundary st then k st else None
  | Cat r1 r2 => run r1 st (fun st' => run r2 st' k)
  | Alt r1 r2 => or_else (run r1 st k) (run r2 st k)
  | Star r' => repeat_greedy (run r') k (String.length (rest st)) st
  | Plus r' =>
      run r' st (fun st' =>
        repeat_greedy (run r') k (String.length (rest st')) st')
  | Opt r' => or_else (run r' st k) (k st)
  | Group n r' => run r' st (fun st' => k (close_group n st st'))
  end.
End Run.

Arguments repeat_greedy {A} body k fuel st.
Arguments run ignorecase {A} r st k.

(** *** Match objects, [search] and [finditer] *)

Record match_obj : Type := {
  m_groups : list (nat * string);
  m_end : mstate
}.

Fixpoint lookup (n : nat) (gs : list (nat * string)) : option string :=
  match gs with
  | [] => None
  | (m, t) :: gs' => if Nat.eqb m n then Some t else lookup n gs'
  end.

(** [m.group(n)] for a group that took part in the match; the groups the
    hook reads always do (see [extractor_groups_taken] below). *)
Definition group (m : match_obj) (n : nat) : string :=
  match lookup n (m_groups m) with
  | Some t => t
  | None => ""
  end.

(** A match starting exactly at the position [(b, s)]. *)
Definition match_at (ignorecase : bool) (r : regex) (b : option ascii)
    (s : string) : option match_obj :=
  run ignorecase r {| before := b; rest := s; groups := [] |}
    (fun st' => Some {| m_groups := groups st'; m_end := st' |}).

(** The leftmost match at or after the position [(b, s)]. *)
Fixpoint search_from (ignorecase : bool) (r : regex) (b : option ascii)
    (s : string) : option match_obj :=
  match match_at ignorecase r b s with
  | Some m => Some m
  | None =>
      match s with
      | "" => None
      | String a s' => search_from ignorecase r (Some a) s'
      end
  end.

(** The successive non-overlapping matches from the position [(b, s)] on;
    after a match that consumed nothing the scan moves one character on. *)
Fixpoint finditer_from (fuel : nat) (ignorecase : bool) (r : regex)
    (b : option ascii) (s : string) : list match_obj :=
  match fuel with
  | 0 => []
  | S fuel' =>
      match search_from ignorecase r b s with
      | None => []
      | Some m =>
          let e := m_end m in
          m :: (if Nat.ltb (String.length (rest e)) (String.length s)
                then finditer_from fuel' ignorecase r (before e) (rest e)
                else match rest e with
                     | "" => []
                     | String a s' =>
                         finditer_from fuel' ignorecase r (Some a) s'
                     end)
      end
  end.

(** *** Two syntactic checks on a pattern *)

(** [nullable r]: [r] may match without consuming a character. *)
Fixpoint nullable (r : regex) : bool :=
  match r with
  | Empty | WordBoundary | Star _ | Opt _ => true
  | Lit _ | Dot | Space | CharSet _ _ => false
  | Cat r1 r2 => nullable r1 && nullable r2
  | Alt r1 r2 => nullable r1 || nullable r2
  | Plus r' | Group _ r' => nullable r'
  end.

(** [closes n r]: every way of matching [r] closes the group [n]. *)
Fixpoint closes (n : nat) (r : regex) : bool :=
  match r with
  | Group m r' => Nat.eqb m n || closes n r'
  | Cat r1 r2 => closes n r1 || closes n r2
  | Alt r1 r2 => closes n r1 && closes n r2
  | Plus r' => closes n r'
  | _ => false
  end.

End Re.

(** *** Reading a pattern

    [compile] reads the concrete syntax of the fragment: literals, [.],
    the escapes [\b], [\s] and escaped punctuation, sets with ranges and
    negation, groups [( )] and [(?: )], [|] and the greedy [*], [+], [?].
    Capturing groups are numbered by their opening parenthesis. *)

Module ReParse.
Import Re.

Definition is_punct (c : ascii) : bool :=
  negb (is_word c) && between 33 126 c.

(** The members of a set, up to the closing bracket. *)
Fixpoint parse_items (s : string) : option (list item * string) :=
  match s with
  | "" => None
  | String c s1 =>
      if Ascii.eqb c "]" then Some ([], s1)
      else if Ascii.eqb c "\" then
        match s1 with
        | "" => None
        | String e s2 =>
            let it := if Ascii.eqb e "s" then Some ISpace
                      else if is_punct e then Some (IChar e)
                      else None in
            match it, parse_items s2 with
            | Some i, Some (its, s3) => Some (i :: its, s3)
            | _, _ => None
            end
        end
      else
        match s1 with
        | String d (String hi s3) =>
            if Ascii.eqb d "-" && negb (Ascii.eqb hi "]") then
              match parse_items s3 with
              | Some (its, s4) => Some (IRange c hi :: its, s4)
              | None => None
              end
            else
              match parse_items s1 with
              | Some (its, s4) => Some (IChar c :: its, s4)
              | None => None
              end
        | _ =>
            match parse_items s1 with
            | Some (its, s4) => Some (IChar c :: its, s4)
            | None => None
            end
        end
  end.

Definition parse_set (s : string) : option (regex * string) :=
  let (negate, s) :=
    match s with
    | String "^" s' => (true, s')
    | _ => (false, s)
    end in
  match parse_items s with
  | Some (i :: its, s') => Some (CharSet negate (i :: its), s')
  | _ => None
  end.

(** A quantifier after an atom. *)
Definition parse_quant (r : regex) (s : string) : regex * string :=
  match s with
  | String "*" s' => (Star r, s')
  | String "+" s' => (Plus r, s')
  | String "?" s' => (Opt r, s')
  | _ => (r, s)
  end.

(** Characters that are not literals of the fragment outside a set. *)
Definition reserved (c : ascii) : bool :=
  existsb (Ascii.eqb c) (list_ascii_of_string "*+?{}^$]").

(** [parse_alt fuel s n] reads an alternation from [s]; [n] groups were
    opened before it.  The result holds the rest of the pattern and the
    number of groups opened so far. *)
Fixpoint parse_alt (fuel : nat) (s : string) (n : nat)
  : option (regex * string * nat) :=
  match fuel with
  | 0 => None
  | S fuel' =>
      match parse_seq fuel' s n with
      | Some (r1, String "|" s', n1) =>
          match parse_alt fuel' s' n1 with
          | Some (r2, s'', n2) => Some (Alt r1 r2, s'', n2)
          | None => None
          end
      | other => other
      end
  end

with parse_seq (fuel : nat) (s : string) (n : nat)
  : option (regex * string * nat) :=
  match fuel with
  | 0 => None
  | S fuel' =>
      match s with
      | "" => Some (Empty, s, n)
      | String ")" _ => Some (Empty, s, n)
      | String "|" _ => Some (Empty, s, n)
      | _ =>
          match parse_atom fuel' s n with
          | Some (r1, s1, n1) =>
              let (r1, s1) := parse_quant r1 s1 in
              match parse_seq fuel' s1 n1 with
              | Some (Empty, s2, n2) => Some (r1, s2, n2)
              | Some (r2, s2, n2) => Some (Cat r1 r2, s2, n2)
              | None => None
              end
          | None => None
          end
      end
  end

with parse_atom (fuel : nat) (s : string) (n : nat)
  : option (regex * string * nat) :=
  match fuel with
  | 0 => None
  | S fuel' =>
      match s with
      | "" => None
      | String "(" (String "?" (String ":" s')) =>
          match parse_alt fuel' s' n with
          | Some (r, String ")" s'', n') => Some (r, s'', n')
          | _ => None
          end
      | String "(" (String "?" _) => None
      | String "(" s' =>
          match parse_alt fuel' s' (S n) with
          | Some (r, String ")" s'', n') => Some (Group (S n) r, s'', n')
          | _ => None
          end
      | String "[" s' =>
          match parse_set s' with
          | Some (r, s'') => Some (r, s'', n)
          | None => None
          end
      | String "\" (String e s') =>
          if Ascii.eqb e "b" then Some (WordBoundary, s', n)
          else if Ascii.eqb e "s" then Some (Space, s', n)
          else if is_punct e then Some (Lit e, s', n)
          else None
      | String "\" "" => None
      | String "." s' => Some (Dot, s', n)
      | String c s' =>
          if reserved c then None else Some (Lit c, s', n)
      end
  end.

(** [re.compile(pattern)]; [None] where Python raises [re.error] or the
    pattern leaves the fragment. *)
Definition compile (pattern : string) : option regex :=
  match parse_alt (3 * String.length pattern + 3) pattern 0 with
  | Some (r, "", _) => Some r
  | _ => None
  end.

End ReParse.

(** [re.search(pattern, text, re.IGNORECASE)] and
    [re.finditer(pattern, text, re.IGNORECASE)] *)
Definition re_search (pattern text : string) : option Re.match_obj :=
  match ReParse.compile pattern with
  | Some r => Re.search_from true r None text
  | None => None
  end.

Definition re_finditer (pattern text : string) : list Re.match_obj :=
  match ReParse.compile pattern with
  | Some r => Re.finditer_from (S (String.length text)) true r None text
  | None => []
  end.

(** ** The pattern tables *)

Definition DANGEROUS_BASH_PATTERNS : list (string * string) :=
  [ ("\brm\s+(-[rRfiv]+\s+)*/",
       "Cannot delete files with absolute paths starting from root");
    ("\brm\s+(-[rRfiv]+\s+)*~/",
       "Cannot delete files in home directory via rm");
    ("\brm\s+.*\.\.[/\s]",
       "Cannot use .. in rm commands - potential path traversal");

    (">\s*/etc/", "Cannot redirect output to /etc/");
    (">\s*/usr/", "Cannot redirect output to /usr/");
    (">\s*/var/", "Cannot redirect output to /var/");
    (">\s*/bin/", "Cannot redirect output to /bin/");
    (">\s*/sbin/", "Cannot redirect output to /sbin/");
    (">\s*/lib/", "Cannot redirect output to /lib/");
    (">\s*/boot/", "Cannot redirect output to /boot/");
    (">\s*/sys/", "Cannot redirect output to /sys/");
    (">\s*/proc/", "Cannot redirect output to /proc/");
    (">\s*/root/", "Cannot redirect output to /root/");

    ("\bchmod\s+.*\s+/(?:etc|usr|var|bin|sbin|lib|boot)",
       "Cannot chmod system directories");
    ("\bchown\s+.*\s+/(?:etc|usr|var|bin|sbin|lib|boot)",
       "Cannot chown system directories");

    ("\bdd\s+.*of=/dev/", "Cannot write directly to devices with dd");
    ("\bmkfs\b", "Cannot create filesystems");
    ("\bfdisk\b", "Cannot modify disk partitions");
    ("\bparted\b", "Cannot modify disk partitions");

    ("\bkillall\s+-9\s+", "Cannot use killall -9");
    ("\bpkill\s+-9\s+", "Cannot use pkill -9");
    ("\bsystemctl\s+(stop|disable|mask)\s+",
       "Cannot stop/disable system services");
    ("\blaunchctl\s+(unload|remove)\s+",
       "Cannot unload system services (macOS)");

    ("\biptables\s+.*-F", "Cannot flush firewall rules");
    ("\bufw\s+disable", "Cannot disable firewall");

    ("\bsudo\s+rm\s+", "Cannot use sudo rm");
    ("\bsudo\s+chmod\s+", "Cannot use sudo chmod");
    ("\bsudo\s+chown\s+", "Cannot use sudo chown");

    ("\bchmod\s+-[rR]\s+/", "Cannot recursive chmod from root");
    ("\bchown\s+-[rR]\s+/", "Cannot recursive chown from root");
    ("\bfind\s+/\s+.*-delete", "Cannot use find / with -delete");
    ("\bfind\s+/\s+.*-exec\s+rm", "Cannot use find / with -exec rm") ].

Definition BASH_WRITE_PATTERNS : list (string * string) :=
  [ (">\s*([^\s;|&><]+)", "redirect output");
    (">>\s*([^\s;|&><]+)", "append output");
    ("\btee\s+(?:-a\s+)?([^\s;|&><]+)", "tee") ].

Definition BASH_COPY_PATTERNS : list string :=
  [ "\bcp\s+(?:-[a-zA-Z]+\s+)*([^\s;|&><]+)\s+([^\s;|&><]+)";
    "\bmv\s+(?:-[a-zA-Z]+\s+)*([^\s;|&><]+)\s+([^\s;|&><]+)" ].

(** ** The checks on a command *)

(** A [for] loop whose body either returns ([Some]) or falls through to
    the next round ([None]). *)
Fixpoint first_some {A B : Type} (body : A -> option B) (l : list A)
  : option B :=
  match l with
  | [] => None
  | x :: l' =>
      match body x with
      | Some b => Some b
      | None => first_some body l'
      end
  end.

(** The same loop for a body that may raise. *)
Fixpoint first_some_r {A B : Type} (body : A -> result (option B))
    (l : list A) : result (option B) :=
  match l with
  | [] => Ok None
  | x :: l' =>
      o <- body x ;;
      match o with
      | Some b => Ok (Some b)
      | None => first_some_r body l'
      end
  end.

Definition returned (o : option string) : bool * string :=
  match o with
  | Some reason => (true, reason)
  | None => (false, "")
  end.

Definition check_bash_command (command : string) : bool * string :=
  returned
    (first_some
       (fun '(pattern, reason) =>
          match re_search pattern command with
          | Some _ => Some reason
          | None => None
          end)
       DANGEROUS_BASH_PATTERNS).

(** The body of the inner loop of [check_bash_write_paths] for one target. *)
Definition check_write_target (env : Env) (project_root desc target_path : string)
  : option string :=
  if Py.startswith target_path "/dev/" then None
  else if is_tmp target_path then None
  else if negb (Py.startswith target_path "/") then None
  else
    let (is_protected, reason) := is_protected_path env target_path in
    if is_protected then
      Some ("Cannot " ++ desc ++ " to protected path: " ++ target_path)
    else if is_path_outside_project env target_path project_root then
      Some ("Cannot " ++ desc ++ " to '" ++ target_path
            ++ "' - path is outside project directory")
    else None.

Definition check_bash_write_paths (env : Env) (command project_root : string)
  : bool * string :=
  returned
    (first_some
       (fun '(pattern, desc) =>
          first_some
            (fun m => check_write_target env project_root desc (Re.group m 1))
            (re_finditer pattern command))
       BASH_WRITE_PATTERNS).

(** The body of the inner loop of [check_bash_copy_operations] for the two
    groups of one match; the two expansions happen before any check. *)
Definition check_copy_paths (env : Env) (project_root source_path dest_path : string)
  : result (option string) :=
  source_expanded <- PosixPath.expanduser env source_path ;;
  dest_expanded <- PosixPath.expanduser env dest_path ;;
  let source_check :=
    if Py.startswith source_path "~" || Py.startswith source_path "/" then
      if is_tmp source_expanded then None
      else if is_path_outside_project env source_expanded project_root then
        Some ("Cannot copy/move from '" ++ source_path
              ++ "' - source is outside project directory")
      else None
    else None in
  match source_check with
  | Some reason => Ok (Some reason)
  | None =>
      if Py.startswith dest_path "~" || Py.startswith dest_path "/" then
        if is_tmp dest_expanded then Ok None
        else if fst (is_protected_path env dest_expanded) then
          Ok (Some ("Cannot copy/move to protected path: " ++ dest_path))
        else if is_path_outside_project env dest_expanded project_root then
          Ok (Some ("Cannot copy/move to '" ++ dest_path
                    ++ "' - destination is outside project directory"))
        else Ok None
      else Ok None
  end.

Definition check_bash_copy_operations (env : Env) (command project_root : string)
  : result (bool * string) :=
  o <- first_some_r
         (fun pattern =>
            first_some_r
              (fun m =>
                 check_copy_paths env project_root (Re.group m 1) (Re.group m 2))
              (re_finditer pattern command))
         BASH_COPY_PATTERNS ;;
  Ok (returned o).

(** ** The dispatcher *)

Record tool_input_t : Type := {
  file_path : option string;
  command : option string
}.

(** The decoded request; [None] is an absent key. *)
Record hook_input : Type := {
  tool_name : option string;
  tool_input : option tool_input_t;
  cwd : option string
}.

(** How the process ends: [allow_tool()], [deny_tool(reason)], or an
    exception nobody caught. *)
Inductive outcome : Type :=
| Allow
| Deny (reason : string)
| Uncaught (e : exn).

Definition get_default (o : option string) (d : string) : string :=
  match o with
  | Some v => v
  | None => d
  end.

Definition BLOCKED : string := "🛡️ BLOCKED: ".

Definition blocked_command (reason command : string) : string :=
  BLOCKED ++ reason ++ Py.newline ++ "Command: " ++ command.

(** [input_data.get("tool_input", {})] *)
Definition tool_input_of (input_data : hook_input) : tool_input_t :=
  match tool_input input_data with
  | Some t => t
  | None => {| file_path := None; command := None |}
  end.

(** [env_project_dir or input_data.get("cwd") or os.getcwd()] *)
Definition project_root_of (env : Env) (input_data : hook_input) : string :=
  let env_project_dir := get_default (environ env "CLAUDE_PROJECT_DIR") "" in
  Py.str_or env_project_dir
    (Py.str_or (get_default (cwd input_data) "") (getcwd env)).

(** [main]; [stdin] is the decoded request, [None] when [json.load] raises
    [JSONDecodeError]. *)
Definition main (env : Env) (stdin : option hook_input) : outcome :=
  match stdin with
  | None => Allow
  | Some input_data =>
      let tool_name := get_default (tool_name input_data) "" in
      let tool_input := tool_input_of input_data in
      let project_root := project_root_of env input_data in
      if String.eqb tool_name "Write" || String.eqb tool_name "Edit" then
        let file_path := get_default (file_path tool_input) "" in
        if String.eqb file_path "" then Allow
        else
          let (is_protected, reason) := is_protected_path env file_path in
          if is_protected then Deny (BLOCKED ++ reason)
          else if is_path_outside_project env file_path project_root then
            Deny (BLOCKED ++ "Cannot write to '" ++ file_path
                  ++ "' - path is outside project directory '"
                  ++ project_root ++ "'")
          else Allow
      else if String.eqb tool_name "Bash" then
        let command := get_default (command tool_input) "" in
        if String.eqb command "" then Allow
        else
          let (is_dangerous, reason) := check_bash_command command in
          if is_dangerous then Deny (blocked_command reason command)
          else
            let (is_blocked, reason) :=
              check_bash_write_paths env command project_root in
            if is_blocked then Deny (blocked_command reason command)
            else
              match check_bash_copy_operations env command project_root with
              | Raise e => Uncaught e
              | Ok (is_blocked, reason) =>
                  if is_blocked then Deny (blocked_command reason command)
                  else Allow
              end
      else Allow
  end.

(** * Properties *)

(** ** Vocabulary of the statements *)


(** A sample environment: one user, home [/home/user], no overrides. *)
Definition sample_env : Env :=
  {| environ := fun name =>
       if String.eqb name "HOME" then Some "/home/user" else None;
     pw_uid_dir := Some "/home/user";
     pw_nam_dir := fun name =>
       if String.eqb name "user" then Some "/home/user" else None;
     getcwd := "/home/user/project" |}.

Definition sample_root : string := "/home/user/project".

(** A path whose home shorthand names a user with a null character in the
    name: [os.path.expanduser] raises on it. *)
Definition unresolvable_path : string := String "~" (String Py.nul "/x").

Definition write_request (name file_path : string) (cwd : option string)
  : hook_input :=
  {| tool_name := Some name;
     tool_input := Some {| file_path := Some file_path; command := None |};
     cwd := cwd |}.

Definition bash_request (command : string) (cwd : option string)
  : hook_input :=
  {| tool_name := Some "Bash";
     tool_input := Some {| file_path := None; command := Some command |};
     cwd := cwd |}.

(** The directory prefix of a root: the root and a separator, unless the
    root already ends with one (as the top of the file system does). *)
Definition dir_prefix (root : string) : string :=
  if Py.endswith root Py.sep then root else root ++ "/".

(** [p] lies under [root] in the directory tree: it is the directory prefix
    of [root] followed by further components. *)
Definition nested_under (root p : string) : Prop :=
  exists rest, p = dir_prefix root ++ rest.

(** [p] is [root] or lies under it. *)
Definition at_or_under (root p : string) : Prop :=
  p = root \/ nested_under root p.

(** [covers root p]: the test both predicates apply to resolved paths, [p]
    is [root] or begins with [root] and a separator. *)
Definition covers (root p : string) : bool :=
  Py.startswith p (root ++ "/") || String.eqb p root.

(** No root of [dirs], closed by a separator, is a prefix of another one. *)
Definition separated (dirs : list string) : bool :=
  forallb
    (fun d =>
       forallb
         (fun d' => String.eqb d d' || negb (Py.startswith (d ++ "/") (d' ++ "/")))
         dirs)
    dirs.

(** The configuration directory as the boundary check resolves it. *)
Definition config_root (env : Env) : result string :=
  d <- PosixPath.expanduser env (claude_config_dir env) ;;
  Ok (PosixPath.abspath env d).

(** The targets [check_bash_write_paths] visits, in the order it visits
    them, each with the description of its pattern. *)
Definition write_targets (command : string) : list (string * string) :=
  flat_map
    (fun '(pattern, desc) =>
       map (fun m => (desc, Re.group m 1)) (re_finditer pattern command))
    BASH_WRITE_PATTERNS.

(** The source and destination pairs [check_bash_copy_operations] visits. *)
Definition copy_pairs (command : string) : list (string * string) :=
  flat_map
    (fun pattern =>
       map (fun m => (Re.group m 1, Re.group m 2)) (re_finditer pattern command))
    BASH_COPY_PATTERNS.

Definition protected_target_reason (desc target_path : string) : string :=
  "Cannot " ++ desc ++ " to protected path: " ++ target_path.

Definition outside_reason (desc target_path : string) : string :=
  "Cannot " ++ desc ++ " to '" ++ target_path
  ++ "' - path is outside project directory".

Definition copy_from_reason (source_path : string) : string :=
  "Cannot copy/move from '" ++ source_path
  ++ "' - source is outside project directory".

Definition copy_to_reason (dest_path : string) : string :=
  "Cannot copy/move to '" ++ dest_path
  ++ "' - destination is outside project directory".

Definition copy_protected_reason (dest_path : string) : string :=
  "Cannot copy/move to protected path: " ++ dest_path.

(** The patterns of the extractors consume at least one character and
    close the groups the extractors read. *)
Definition reads_groups (ns : list nat) (pattern : string) : bool :=
  match ReParse.compile pattern with
  | Some r => negb (Re.nullable r) && forallb (fun n => Re.closes n r) ns
  | None => false
  end.

(** A text of the 7-bit range, the range on which the model of [re] and of
    [os.path.expanduser] follows Python. *)
Fixpoint seven_bit (s : string) : bool :=
  match s with
  | "" => true
  | String a s' => Nat.ltb (nat_of_ascii a) 128 && seven_bit s'
  end.

(** A component of a normal path: not empty, not [.], not [..], and
    without a separator. *)
Definition clean_component (c : string) : Prop :=
  c <> "" /\ c <> "." /\ c <> ".." /\ Py.contains Py.sep c = false.

(** The targets [check_bash_write_paths] passes over: device paths,
    temporary paths and relative paths. *)
Definition skipped (target_path : string) : bool :=
  Py.startswith target_path "/dev/" || is_tmp target_path
  || negb (Py.startswith target_path "/").

(** A target that makes [check_bash_write_paths] return: it is not passed
    over, and it is protected or outside the project. *)
Definition target_blocks (env : Env) (project_root target_path : string)
  : bool :=
  negb (skipped target_path)
  && (fst (is_protected_path env target_path)
      || is_path_outside_project env target_path project_root).

(** An argument of [cp] or [mv] the extractor does not look at: it begins
    neither with a home shorthand nor with a separator. *)
Definition unchecked_argument (path : string) : bool :=
  negb (Py.startswith path "~" || Py.startswith path "/").

(** [t] is a piece of [text]. *)
Definition piece_of (t text : string) : Prop :=
  exists a b, text = a ++ t ++ b.

(** Positions of the matcher that differ in case only, and what a match
    ensures about the position it ends at. *)
Section MatcherVocabulary.
Import Re.

Fixpoint lower_str (s : string) : string :=
  match s with
  | "" => ""
  | String a s' => String (lower a) (lower_str s')
  end.

(** A test on characters that does not see the case. *)
Definition caseless (p : ascii -> bool) : Prop :=
  forall a, p (lower a) = p a.

(** Two positions that differ in case only. *)
Definition sim (st st' : mstate) : Prop :=
  option_map lower (before st) = option_map lower (before st')
  /\ lower_str (rest st) = lower_str (rest st').

Definition opt_rel {A A' : Type} (Q : A -> A' -> Prop)
    (o : option A) (o' : option A') : Prop :=
  match o, o' with
  | Some a, Some a' => Q a a'
  | None, None => True
  | _, _ => False
  end.

(** Continuations that agree on positions differing in case only. *)
Definition conts {A A' : Type} (Q : A -> A' -> Prop)
    (k : mstate -> option A) (k' : mstate -> option A') : Prop :=
  forall x x', sim x x' -> opt_rel Q (k x) (k' x').

Definition taken (n : nat) (gs : list (nat * string)) : Prop :=
  lookup n gs <> None.

(** From [st] to [st'] the position does not move back and no group is
    lost. *)
Definition onward (st st' : mstate) : Prop :=
  String.length (rest st') <= String.length (rest st)
  /\ forall n, taken n (groups st) -> taken n (groups st').

(** What a match of [r] from [st] to [st'] ensures. *)
Definition after (r : regex) (st st' : mstate) : Prop :=
  onward st st'
  /\ (nullable r = false ->
      String.length (rest st') < String.length (rest st))
  /\ forall n, closes n r = true -> taken n (groups st').




End MatcherVocabulary.

(** * Proofs *)

(** ** Prefixes *)

Section Prefixes.
Import Py.

Lemma startswith_nil (s : string) : startswith s "" = true.
Proof. destruct s; reflexivity. Qed.

Lemma startswith_cons (a b : ascii) (s p : string) :
  startswith (String a s) (String b p) = Ascii.eqb b a && startswith s p.
Proof.
  unfold startswith; simpl.
  destruct (ascii_dec b a) as [->|Hne].
  - now rewrite Ascii.eqb_refl.
  - apply Ascii.eqb_neq in Hne. now rewrite Hne.
Qed.

Lemma startswith_app (p t : string) : startswith (p ++ t) p = true.
Proof.
  induction p as [|a p IH]; cbn [append].
  - apply startswith_nil.
  - now rewrite startswith_cons, Ascii.eqb_refl.
Qed.

Lemma startswith_iff (s p : string) :
  startswith s p = true <-> exists t, s = p ++ t.
Proof.
  split.
  - revert s; induction p as [|b p IH]; intros s H.
    + now exists s.
    + destruct s as [|a s]; [discriminate|].
      rewrite startswith_cons in H.
      apply andb_true_iff in H as [Hab H].
      apply Ascii.eqb_eq in Hab; subst b.
      destruct (IH _ H) as [t ->]. now exists t.
  - intros [t ->]. apply startswith_app.
Qed.

Lemma append_assoc (a b c : string) : (a ++ b) ++ c = a ++ b ++ c.
Proof. induction a; simpl; congruence. Qed.

Lemma append_nil_r (a : string) : a ++ "" = a.
Proof. induction a; simpl; congruence. Qed.

Lemma endswith_app_sep (a : string) : endswith (a ++ "/") sep = true.
Proof.
  induction a as [|c a IH]; [reflexivity|].
  simpl. destruct (a ++ "/") eqn:E; [|exact IH].
  destruct a; discriminate.
Qed.
End Prefixes.

(** ** Containment of paths *)

Lemma covers_true_iff (root p : string) :
  covers root p = true <-> p = root \/ exists rest, p = root ++ "/" ++ rest.
Proof.
  unfold covers. rewrite orb_true_iff, String.eqb_eq, startswith_iff.
  split; intros [H|H]; auto.
  - destruct H as [t ->]. right. exists t. apply append_assoc.
  - destruct H as [t ->]. left. exists t. symmetry. apply append_assoc.
Qed.

(** On a root that does not end with a separator the test finds exactly the
    paths at or under the root. *)
Lemma covers_at_or_under (root p : string) :
  Py.endswith root Py.sep = false ->
  covers root p = true <-> at_or_under root p.
Proof.
  intros Hend. rewrite covers_true_iff.
  unfold at_or_under, nested_under, dir_prefix. rewrite Hend.
  split; intros [H|[rest H]]; auto; right; exists rest;
    rewrite H; [symmetry|]; apply append_assoc.
Qed.

(** ** The two predicates on a resolved path *)

Lemma first_protected_find (abs_path : string) (dirs : list string) :
  first_protected abs_path dirs =
    match find (fun d => covers d abs_path) dirs with
    | Some d => (true, protected_reason d)
    | None => (false, "")
    end.
Proof.
  induction dirs as [|d dirs IH]; simpl; [reflexivity|].
  unfold covers at 1. now destruct (_ || _).
Qed.

Lemma is_protected_path_resolved (env : Env) (file_path abs_path : string) :
  resolve env file_path = Ok abs_path ->
  is_protected_path env file_path =
    first_protected abs_path PROTECTED_DIRECTORIES.
Proof. intros H. unfold is_protected_path. now rewrite H. Qed.

Lemma is_path_outside_project_resolved (env : Env)
    (file_path project_root abs_file abs_config : string) :
  resolve env file_path = Ok abs_file ->
  config_root env = Ok abs_config ->
  is_path_outside_project env file_path project_root =
    negb (covers abs_config abs_file) && negb (is_tmp abs_file)
    && negb (covers (PosixPath.abspath env project_root) abs_file).
Proof.
  intros Hf Hc. unfold is_path_outside_project, config_root in *.
  rewrite Hf. simpl.
  destruct (PosixPath.expanduser env (claude_config_dir env)) as [d|e];
    [|discriminate].
  simpl in *. injection Hc as <-.
  fold (covers (PosixPath.abspath env d) abs_file).
  destruct (covers (PosixPath.abspath env d) abs_file); [reflexivity|].
  destruct (is_tmp abs_file); [reflexivity|]. simpl.
  unfold covers. now rewrite negb_orb.
Qed.

(** An absolute path without a home shorthand resolves to its normal form,
    whatever the environment. *)
Lemma resolve_absolute (env : Env) (p : string) :
  Py.startswith p "/" = true ->
  resolve env p = Ok (PosixPath.normpath p).
Proof.
  intros H. unfold resolve, PosixPath.expanduser.
  destruct p as [|a p]; [discriminate|].
  rewrite startswith_cons in H. apply andb_true_iff in H as [Ha _].
  apply Ascii.eqb_eq in Ha; subst a.
  cbn [Py.startswith String.prefix negb]. simpl bind.
  unfold PosixPath.abspath, PosixPath.isabs.
  now rewrite startswith_cons, startswith_nil.
Qed.

(** ** Protected roots do not overlap *)

Lemma startswith_comparable (s a b : string) :
  Py.startswith s a = true -> Py.startswith s b = true ->
  Py.startswith a b = true \/ Py.startswith b a = true.
Proof.
  revert a b; induction s as [|c s IH]; intros a b Ha Hb.
  - destruct a; [|discriminate]. right. apply startswith_nil.
  - destruct a as [|x a]; [right; apply startswith_nil|].
    destruct b as [|y b]; [left; apply startswith_nil|].
    rewrite startswith_cons in Ha, Hb. rewrite !startswith_cons.
    apply andb_true_iff in Ha as [Hx Ha], Hb as [Hy Hb].
    apply Ascii.eqb_eq in Hx, Hy; subst x y.
    rewrite Ascii.eqb_refl. cbn [andb]. now apply IH.
Qed.

Lemma covers_sep (root p : string) :
  covers root p = true -> Py.startswith (p ++ "/") (root ++ "/") = true.
Proof.
  intros H. apply covers_true_iff in H as [->|[rest ->]].
  - rewrite <- (append_nil_r (root ++ "/")) at 1. apply startswith_app.
  - apply startswith_iff. exists (rest ++ "/").
    now rewrite !append_assoc.
Qed.

Lemma separated_unique (dirs : list string) (p d d' : string) :
  separated dirs = true -> In d dirs -> In d' dirs ->
  covers d p = true -> covers d' p = true -> d = d'.
Proof.
  intros Hsep Hd Hd' Hc Hc'.
  unfold separated in Hsep. rewrite forallb_forall in Hsep.
  pose proof (Hsep d Hd) as H1. pose proof (Hsep d' Hd') as H2.
  rewrite forallb_forall in H1, H2.
  specialize (H1 d' Hd'). specialize (H2 d Hd).
  apply covers_sep in Hc, Hc'.
  destruct (startswith_comparable _ _ _ Hc Hc') as [H|H].
  - rewrite H in H1. rewrite orb_false_r in H1. now apply String.eqb_eq.
  - rewrite H in H2. rewrite orb_false_r in H2. symmetry. now apply String.eqb_eq.
Qed.

Lemma find_unique {A : Type} (f : A -> bool) (l : list A) (x : A) :
  In x l -> f x = true -> (forall y, In y l -> f y = true -> y = x) ->
  find f l = Some x.
Proof.
  induction l as [|a l IH]; intros Hin Hx Huniq; [contradiction|].
  simpl. destruct (f a) eqn:Ha.
  - f_equal. apply Huniq; [now left|assumption].
  - destruct Hin as [->|Hin]; [congruence|].
    apply IH; auto. intros y Hy. apply Huniq. now right.
Qed.

Lemma protected_separated : separated PROTECTED_DIRECTORIES = true.
Proof. vm_compute. reflexivity. Qed.

Lemma protected_no_trailing_sep :
  forall root, In root PROTECTED_DIRECTORIES -> Py.endswith root Py.sep = false.
Proof.
  apply Forall_forall. repeat constructor.
Qed.

(** ** C4: the Protected-Path Classifier *)

(** C4.  A path that resolves to a protected root or under one is protected,
    and the reason, [Cannot modify files in protected directory: ] followed
    by the root, names that root, which is the first (indeed the only)
    root of the list that contains the path; a path that resolves to no root
    and under none is not protected, whatever string prefix it shares with a
    root: [/usrlocal] and [/variant/x] are not protected. *)
Theorem protected_path_classifier :
  (forall (env : Env) (file_path abs_path root : string),
      resolve env file_path = Ok abs_path ->
      In root PROTECTED_DIRECTORIES ->
      at_or_under root abs_path ->
      is_protected_path env file_path
      = (true, "Cannot modify files in protected directory: " ++ root)
      /\ find (fun d => covers d abs_path) PROTECTED_DIRECTORIES = Some root)
  /\ (forall (env : Env) (file_path abs_path : string),
         resolve env file_path = Ok abs_path ->
         (forall root, In root PROTECTED_DIRECTORIES ->
                       ~ at_or_under root abs_path) ->
         is_protected_path env file_path = (false, ""))
  /\ (forall env : Env,
         is_protected_path env "/usrlocal" = (false, "")
         /\ is_protected_path env "/variant/x" = (false, "")).
Proof.
  split; [|split].
  - intros env file_path abs_path root Hres Hin Hunder.
    assert (Hfind : find (fun d => covers d abs_path) PROTECTED_DIRECTORIES
                    = Some root).
    { apply find_unique; auto.
      - apply covers_at_or_under; auto using protected_no_trailing_sep.
      - intros d Hd Hc.
        apply (separated_unique PROTECTED_DIRECTORIES abs_path);
          auto using protected_separated.
        apply covers_at_or_under; auto using protected_no_trailing_sep. }
    split; [|exact Hfind].
    rewrite (is_protected_path_resolved env file_path abs_path Hres), first_protected_find.
    now rewrite Hfind.
  - intros env file_path abs_path Hres Hnone.
    rewrite (is_protected_path_resolved env file_path abs_path Hres), first_protected_find.
    destruct (find _ _) as [d|] eqn:Hfind; [|reflexivity].
    apply find_some in Hfind as [Hd Hc]. exfalso.
    apply (Hnone d Hd).
    apply covers_at_or_under; auto using protected_no_trailing_sep.
  - intros env. split; reflexivity.
Qed.

Lemma protected_path_classifier_witness :
  is_protected_path sample_env "~user/../../etc/ssh/sshd_config"
    = (true, "Cannot modify files in protected directory: /etc")
  /\ is_protected_path sample_env "/srv/www/index.html" = (false, "").
Proof.
  destruct protected_path_classifier as (Hin & Hout & _). split.
  - refine (proj1 (Hin sample_env "~user/../../etc/ssh/sshd_config"
                     "/etc/ssh/sshd_config" "/etc" _ _ _)).
    + vm_compute. reflexivity.
    + simpl. tauto.
    + right. exists "ssh/sshd_config". vm_compute. reflexivity.
  - apply (Hout sample_env "/srv/www/index.html" "/srv/www/index.html").
    + vm_compute. reflexivity.
    + intros root Hroot Hunder.
      apply covers_at_or_under in Hunder;
        [|now apply protected_no_trailing_sep].
      revert root Hroot Hunder.
      apply (proj1 (Forall_forall
               (fun root => covers root "/srv/www/index.html" = true -> False)
               PROTECTED_DIRECTORIES)).
      repeat constructor; vm_compute; discriminate.
Defined.

(** ** The loops as scans of a list *)

Lemma first_some_ext {A B : Type} (f g : A -> option B) (l : list A) :
  (forall x, f x = g x) -> first_some f l = first_some g l.
Proof. intros H. induction l as [|x l IH]; simpl; [|rewrite H, IH]; reflexivity. Qed.

Lemma first_some_app {A B : Type} (f : A -> option B) (l1 l2 : list A) :
  first_some f (l1 ++ l2)%list =
    match first_some f l1 with
    | Some b => Some b
    | None => first_some f l2
    end.
Proof.
  induction l1 as [|x l1 IH]; simpl; [reflexivity|].
  now destruct (f x).
Qed.

Lemma first_some_map {A B C : Type} (f : B -> option C) (h : A -> B)
    (l : list A) :
  first_some f (map h l) = first_some (fun x => f (h x)) l.
Proof. induction l as [|x l IH]; simpl; [|rewrite IH]; reflexivity. Qed.

Lemma first_some_flat_map {A B C : Type} (f : B -> option C)
    (g : A -> list B) (l : list A) :
  first_some f (flat_map g l) = first_some (fun x => first_some f (g x)) l.
Proof.
  induction l as [|x l IH]; simpl; [reflexivity|].
  now rewrite first_some_app, IH.
Qed.

Lemma first_some_r_ext {A B : Type} (f g : A -> result (option B))
    (l : list A) :
  (forall x, f x = g x) -> first_some_r f l = first_some_r g l.
Proof. intros H. induction l as [|x l IH]; simpl; [|rewrite H, IH]; reflexivity. Qed.

Lemma first_some_r_app {A B : Type} (f : A -> result (option B))
    (l1 l2 : list A) :
  first_some_r f (l1 ++ l2)%list =
    (o <- first_some_r f l1 ;;
     match o with
     | Some b => Ok (Some b)
     | None => first_some_r f l2
     end).
Proof.
  induction l1 as [|x l1 IH]; simpl.
  - now destruct (first_some_r f l2) as [[b|]|e].
  - destruct (f x) as [[b|]|e]; simpl; auto.
Qed.

Lemma first_some_r_map {A B C : Type} (f : B -> result (option C))
    (h : A -> B) (l : list A) :
  first_some_r f (map h l) = first_some_r (fun x => f (h x)) l.
Proof. induction l as [|x l IH]; simpl; [|rewrite IH]; reflexivity. Qed.

Lemma first_some_r_flat_map {A B C : Type} (f : B -> result (option C))
    (g : A -> list B) (l : list A) :
  first_some_r f (flat_map g l) = first_some_r (fun x => first_some_r f (g x)) l.
Proof.
  induction l as [|x l IH]; simpl; [reflexivity|].
  rewrite first_some_r_app, IH.
  destruct (first_some_r f (g x)) as [[b|]|e]; reflexivity.
Qed.

Lemma check_bash_write_paths_scan (env : Env) (command project_root : string) :
  check_bash_write_paths env command project_root =
    returned
      (first_some
         (fun '(desc, target) =>
            check_write_target env project_root desc target)
         (write_targets command)).
Proof.
  unfold check_bash_write_paths, write_targets. f_equal.
  rewrite first_some_flat_map. apply first_some_ext.
  intros [pattern desc]. now rewrite first_some_map.
Qed.

Lemma check_bash_copy_operations_scan (env : Env)
    (command project_root : string) :
  check_bash_copy_operations env command project_root =
    (o <- first_some_r
            (fun '(source, dest) =>
               check_copy_paths env project_root source dest)
            (copy_pairs command) ;;
     Ok (returned o)).
Proof.
  unfold check_bash_copy_operations, copy_pairs. f_equal.
  rewrite first_some_r_flat_map. apply first_some_r_ext.
  intros pattern. now rewrite first_some_r_map.
Qed.

(** ** C3: the Project-Boundary Checker *)

Lemma is_tmp_iff (p : string) :
  is_tmp p = true <-> nested_under "/tmp" p \/ nested_under "/private/tmp" p.
Proof.
  unfold is_tmp, nested_under. rewrite orb_true_iff, !startswith_iff.
  reflexivity.
Qed.

(** The checker on a path that resolves, with a configuration directory
    that resolves: the carve-outs answer "inside" whatever the project
    root; a path at or under a project root that does not end with a
    separator is inside; any other path is outside. *)
Lemma project_boundary_checker (env : Env)
    (file_path project_root abs_file abs_config : string) :
  resolve env file_path = Ok abs_file ->
  config_root env = Ok abs_config ->
  let abs_project := PosixPath.abspath env project_root in
  (covers abs_config abs_file = true ->
   is_path_outside_project env file_path project_root = false)
  /\ (is_tmp abs_file = true ->
      is_path_outside_project env file_path project_root = false)
  /\ (Py.endswith abs_project Py.sep = false ->
      at_or_under abs_project abs_file ->
      is_path_outside_project env file_path project_root = false)
  /\ (covers abs_config abs_file = false -> is_tmp abs_file = false ->
      covers abs_project abs_file = false ->
      is_path_outside_project env file_path project_root = true).
Proof.
  intros Hf Hc abs_project.
  rewrite (is_path_outside_project_resolved env file_path project_root abs_file abs_config Hf Hc).
  fold abs_project. repeat split.
  - now intros ->.
  - intros ->. now rewrite andb_false_r.
  - intros Hend Hunder. apply covers_at_or_under in Hunder; [|assumption].
    rewrite Hunder. now rewrite andb_false_r.
  - now intros -> -> ->.
Qed.

(** C3.  The checker at the project root [/]: the path
    [/home/user/notes.txt] resolves to itself, the root resolves to [/],
    the path lies under the root, outside the configuration directory and
    the temporary directories, and the checker answers "outside". *)
Theorem outside_project_under_top_root :
  resolve sample_env "/home/user/notes.txt" = Ok "/home/user/notes.txt"
  /\ PosixPath.abspath sample_env "/" = "/"
  /\ nested_under "/" "/home/user/notes.txt"
  /\ is_path_outside_project sample_env "/home/user/notes.txt" "/" = true.
Proof.
  repeat split; try reflexivity.
  exists "home/user/notes.txt". reflexivity.
Qed.

(** ** C9: resolution failures *)

(** C9.  When the resolution of the path raises, [is_protected_path] answers
    "not protected" with an empty reason and [is_path_outside_project]
    answers "inside", as it does when the resolution of the configuration
    directory raises; both return a plain value, so nothing reaches the
    caller, and a Write or Edit of such a path is allowed. *)
Theorem predicates_fail_open (env : Env) (file_path project_root : string)
    (e : exn) :
  (resolve env file_path = Raise e ->
   is_protected_path env file_path = (false, "")
   /\ is_path_outside_project env file_path project_root = false
   /\ forall name cwd,
        name = "Write" \/ name = "Edit" ->
        main env (Some (write_request name file_path cwd)) = Allow)
  /\ (config_root env = Raise e ->
      is_path_outside_project env file_path project_root = false).
Proof.
  split.
  - intros H.
    assert (Hp : is_protected_path env file_path = (false, ""))
      by (unfold is_protected_path; now rewrite H).
    assert (Ho : forall root, is_path_outside_project env file_path root = false)
      by (intros root; unfold is_path_outside_project; now rewrite H).
    repeat split; auto.
    intros name cwd Hname. unfold main, write_request. simpl.
    assert (Hn : (name =? "Write") || (name =? "Edit") = true)
      by (destruct Hname as [->| ->]; reflexivity).
    rewrite Hn, Hp, Ho. now destruct (file_path =? "").
  - intros H. unfold is_path_outside_project, config_root in *.
    destruct (resolve env file_path) as [abs_file|e1]; [|reflexivity].
    simpl. destruct (PosixPath.expanduser env (claude_config_dir env));
      [discriminate|reflexivity].
Qed.

Lemma predicates_fail_open_witness :
  resolve sample_env unresolvable_path = Raise ValueError
  /\ is_protected_path sample_env unresolvable_path = (false, "")
  /\ is_path_outside_project sample_env unresolvable_path sample_root = false
  /\ main sample_env (Some (write_request "Write" unresolvable_path None))
     = Allow.
Proof.
  assert (H : resolve sample_env unresolvable_path = Raise ValueError)
    by (vm_compute; reflexivity).
  destruct (proj1 (predicates_fail_open sample_env unresolvable_path
                     sample_root ValueError) H) as (Hp & Ho & Hm).
  split; [exact H|split; [exact Hp|split; [exact Ho|]]].
  apply Hm. now left.
Defined.

(** ** C10: the two carve-outs *)

Lemma expanduser_plain (env : Env) (p : string) :
  Py.startswith p "~" = false -> PosixPath.expanduser env p = Ok p.
Proof. intros H. unfold PosixPath.expanduser. now rewrite H. Qed.

Lemma is_protected_path_absolute (env : Env) (p : string) :
  Py.startswith p "/" = true ->
  is_protected_path env p =
    first_protected (PosixPath.normpath p) PROTECTED_DIRECTORIES.
Proof.
  intros H. apply is_protected_path_resolved. now apply resolve_absolute.
Qed.

(** A target the extractor does not skip and the classifier does not
    protect goes to the boundary check. *)
Lemma check_write_target_unprotected (env : Env)
    (project_root desc target_path : string) :
  Py.startswith target_path "/dev/" = false ->
  is_tmp target_path = false ->
  Py.startswith target_path "/" = true ->
  is_protected_path env target_path = (false, "") ->
  check_write_target env project_root desc target_path =
    if is_path_outside_project env target_path project_root
    then Some (outside_reason desc target_path)
    else None.
Proof.
  intros Hdev Htmp Habs Hprot. unfold check_write_target.
  now rewrite Hdev, Htmp, Habs, Hprot.
Qed.

Lemma check_write_target_tmp (env : Env) (project_root desc rest : string) :
  check_write_target env project_root desc ("/tmp/" ++ rest) = None
  /\ check_write_target env project_root desc ("/private/tmp/" ++ rest) = None.
Proof.
  unfold check_write_target, is_tmp. cbn [append].
  rewrite !startswith_cons. cbn [Ascii.eqb Bool.eqb andb orb].
  now rewrite !startswith_nil.
Qed.

Lemma absolute_not_tilde (p : string) :
  Py.startswith p "/" = true -> Py.startswith p "~" = false.
Proof.
  destruct p as [|a p]; [discriminate|].
  rewrite !startswith_cons, !startswith_nil, !andb_true_r.
  intros H. apply Ascii.eqb_eq in H. now subst a.
Qed.

(** An absolute source outside the temporary directories, with a relative
    destination. *)
Lemma check_copy_paths_source (env : Env)
    (project_root source_path dest_path : string) :
  Py.startswith source_path "/" = true ->
  is_tmp source_path = false ->
  Py.startswith dest_path "~" || Py.startswith dest_path "/" = false ->
  check_copy_paths env project_root source_path dest_path =
    Ok (if is_path_outside_project env source_path project_root
        then Some (copy_from_reason source_path)
        else None).
Proof.
  intros Habs Htmp Hdest. unfold check_copy_paths.
  pose proof (proj1 (orb_false_iff _ _) Hdest) as [Hd _].
  rewrite (expanduser_plain env source_path (absolute_not_tilde _ Habs)).
  rewrite (expanduser_plain env dest_path Hd). cbn [bind].
  rewrite Habs, orb_true_r, Htmp, Hdest.
  now destruct (is_path_outside_project env source_path project_root).
Qed.

(** A relative source, with an absolute destination outside the temporary
    directories. *)
Lemma check_copy_paths_dest (env : Env)
    (project_root source_path dest_path : string) :
  Py.startswith source_path "~" || Py.startswith source_path "/" = false ->
  Py.startswith dest_path "/" = true ->
  is_tmp dest_path = false ->
  check_copy_paths env project_root source_path dest_path =
    Ok (if fst (is_protected_path env dest_path)
        then Some (copy_protected_reason dest_path)
        else if is_path_outside_project env dest_path project_root
             then Some (copy_to_reason dest_path)
             else None).
Proof.
  intros Hsrc Habs Htmp. unfold check_copy_paths.
  pose proof (proj1 (orb_false_iff _ _) Hsrc) as [Hs _].
  rewrite (expanduser_plain env source_path Hs).
  rewrite (expanduser_plain env dest_path (absolute_not_tilde _ Habs)).
  cbn [bind]. rewrite Hsrc, Habs, orb_true_r, Htmp.
  destruct (fst (is_protected_path env dest_path)); [reflexivity|].
  now destruct (is_path_outside_project env dest_path project_root).
Qed.



(** C10, as stated, fails for the extractors: the token [/tmp/.] resolves
    to exactly [/tmp], which the boundary check puts outside the project,
    yet both extractors pass it over. *)
Lemma tmp_token_resolving_to_tmp_skipped :
  resolve sample_env "/tmp/." = Ok "/tmp"
  /\ is_path_outside_project sample_env "/tmp/." sample_root = true
  /\ In ("redirect output", "/tmp/.") (write_targets "echo x > /tmp/.")
  /\ check_bash_write_paths sample_env "echo x > /tmp/." sample_root
     = (false, "")
  /\ In ("a.txt", "/tmp/.") (copy_pairs "cp a.txt /tmp/.")
  /\ check_bash_copy_operations sample_env "cp a.txt /tmp/." sample_root
     = Ok (false, "").
Proof.
  split; [vm_compute; reflexivity|].
  split; [vm_compute; reflexivity|].
  split; [vm_compute; now left|].
  split; [vm_compute; reflexivity|].
  split; [vm_compute; now left|].
  vm_compute. reflexivity.
Qed.

(** ** C1: protected targets of the Indirect-Write Extractor *)



Lemma check_write_target_protected (env : Env)
    (project_root desc target_path : string) :
  Py.startswith target_path "/" = true ->
  Py.startswith target_path "/dev/" = false ->
  is_tmp target_path = false ->
  fst (is_protected_path env target_path) = true ->
  check_write_target env project_root desc target_path =
    Some (protected_target_reason desc target_path).
Proof.
  intros Habs Hdev Htmp Hprot. unfold check_write_target.
  rewrite Hdev, Htmp, Habs. cbn [negb].
  destruct (is_protected_path env target_path) as [b reason].
  simpl in Hprot. now subst b.
Qed.





(** The test for the temporary directories reads the token as written: a
    token that begins with [/tmp/] and resolves into a protected directory
    is passed over, while a Write of the same path is denied. *)
Lemma tmp_prefix_hides_protected_target :
  resolve sample_env "/tmp/../etc/passwd" = Ok "/etc/passwd"
  /\ check_bash_write_paths sample_env "echo x > /tmp/../etc/passwd"
       sample_root = (false, "")
  /\ main sample_env (Some (bash_request "echo x > /tmp/../etc/passwd" None))
     = Allow
  /\ main sample_env (Some (write_request "Write" "/tmp/../etc/passwd" None))
     = Deny "🛡️ BLOCKED: Cannot modify files in protected directory: /etc".
Proof.
  repeat split; vm_compute; reflexivity.
Qed.

(** ** C6: the Indirect-Write Extractor on three commands *)

(** C6.  Whatever the environment and the project root, the extractor
    blocks [echo hi > /etc/passwd], whose target is in a protected
    directory, and blocks neither [echo hi > ./local.txt], whose target is
    relative, nor [cmd > /dev/null], whose target is the null device. *)
Theorem indirect_write_examples (env : Env) (project_root : string) :
  check_bash_write_paths env "echo hi > /etc/passwd" project_root
    = (true, protected_target_reason "redirect output" "/etc/passwd")
  /\ write_targets "echo hi > ./local.txt"
     = [("redirect output", "./local.txt")]
  /\ check_bash_write_paths env "echo hi > ./local.txt" project_root
     = (false, "")
  /\ write_targets "cmd > /dev/null" = [("redirect output", "/dev/null")]
  /\ check_bash_write_paths env "cmd > /dev/null" project_root = (false, "").
Proof.
  split; [|split; [|split; [|split]]].
  - rewrite check_bash_write_paths_scan.
    replace (write_targets "echo hi > /etc/passwd")
      with [("redirect output", "/etc/passwd")] by (vm_compute; reflexivity).
    cbn [first_some].
    rewrite check_write_target_protected; reflexivity.
  - vm_compute. reflexivity.
  - rewrite check_bash_write_paths_scan.
    replace (write_targets "echo hi > ./local.txt")
      with [("redirect output", "./local.txt")] by (vm_compute; reflexivity).
    reflexivity.
  - vm_compute. reflexivity.
  - rewrite check_bash_write_paths_scan.
    replace (write_targets "cmd > /dev/null")
      with [("redirect output", "/dev/null")] by (vm_compute; reflexivity).
    reflexivity.
Qed.

(** ** C5: the Copy/Move Extractor on four commands *)

Lemma covers_under (root p : string) :
  covers root p = true -> at_or_under root p.
Proof.
  intros H. apply covers_true_iff in H as [->|[rest ->]]; [now left|].
  right. unfold nested_under, dir_prefix.
  destruct (Py.endswith root Py.sep).
  - now exists ("/" ++ rest).
  - exists rest. symmetry. apply append_assoc.
Qed.

(** C5.  The extractor blocks [cp /home/user/.ssh/id_rsa ./stolen], citing
    the source, whenever the source is neither at or under the resolved
    configuration directory nor at or under the resolved project root (it
    is under no temporary directory); it blocks [mv ./a.txt /etc/a.txt]
    because the destination is protected; it does not block
    [cp a.txt b.txt]; and the dispatcher allows
    [cp report.pdf /tmp/report.pdf]. *)
Theorem copy_move_examples (env : Env) (project_root : string) :
  (forall abs_config : string,
      config_root env = Ok abs_config ->
      ~ at_or_under abs_config "/home/user/.ssh/id_rsa" ->
      ~ at_or_under (PosixPath.abspath env project_root)
          "/home/user/.ssh/id_rsa" ->
      check_bash_copy_operations env "cp /home/user/.ssh/id_rsa ./stolen"
        project_root
      = Ok (true, copy_from_reason "/home/user/.ssh/id_rsa"))
  /\ check_bash_copy_operations env "mv ./a.txt /etc/a.txt" project_root
     = Ok (true, copy_protected_reason "/etc/a.txt")
  /\ check_bash_copy_operations env "cp a.txt b.txt" project_root
     = Ok (false, "")
  /\ forall cwd : option string,
       main env (Some (bash_request "cp report.pdf /tmp/report.pdf" cwd))
       = Allow.
Proof.
  split; [|split; [|split]].
  - intros abs_config Hc Hncfg Hnproj.
    rewrite check_bash_copy_operations_scan.
    replace (copy_pairs "cp /home/user/.ssh/id_rsa ./stolen")
      with [("/home/user/.ssh/id_rsa", "./stolen")]
      by (vm_compute; reflexivity).
    cbn [first_some_r].
    rewrite check_copy_paths_source by reflexivity.
    assert (Hout : is_path_outside_project env "/home/user/.ssh/id_rsa"
                     project_root = true).
    { destruct (project_boundary_checker env "/home/user/.ssh/id_rsa"
                  project_root "/home/user/.ssh/id_rsa" abs_config)
        as (_ & _ & _ & Hout); auto.
      apply Hout; [| reflexivity |].
      - destruct (covers abs_config "/home/user/.ssh/id_rsa") eqn:E; auto.
        exfalso. now apply Hncfg, covers_under.
      - destruct (covers (PosixPath.abspath env project_root)
                    "/home/user/.ssh/id_rsa") eqn:E; auto.
        exfalso. now apply Hnproj, covers_under. }
    rewrite Hout. reflexivity.
  - rewrite check_bash_copy_operations_scan.
    replace (copy_pairs "mv ./a.txt /etc/a.txt")
      with [("./a.txt", "/etc/a.txt")] by (vm_compute; reflexivity).
    cbn [first_some_r].
    rewrite check_copy_paths_dest by reflexivity. reflexivity.
  - rewrite check_bash_copy_operations_scan.
    replace (copy_pairs "cp a.txt b.txt")
      with [("a.txt", "b.txt")] by (vm_compute; reflexivity).
    reflexivity.
  - intros cwd. unfold main.
    set (root := project_root_of env _).
    cbn [bash_request tool_name tool_input_of tool_input command get_default].
    replace (check_bash_command "cp report.pdf /tmp/report.pdf")
      with (false, "") by (vm_compute; reflexivity).
    rewrite check_bash_write_paths_scan, check_bash_copy_operations_scan.
    replace (write_targets "cp report.pdf /tmp/report.pdf")
      with (@nil (string * string)) by (vm_compute; reflexivity).
    replace (copy_pairs "cp report.pdf /tmp/report.pdf")
      with [("report.pdf", "/tmp/report.pdf")] by (vm_compute; reflexivity).
    reflexivity.
Qed.

Lemma copy_move_examples_witness :
  check_bash_copy_operations sample_env "cp /home/user/.ssh/id_rsa ./stolen"
    sample_root
  = Ok (true, copy_from_reason "/home/user/.ssh/id_rsa").
Proof.
  apply (proj1 (copy_move_examples sample_env sample_root)
           "/home/user/.claude").
  - vm_compute. reflexivity.
  - intros Hunder.
    assert (H : covers "/home/user/.claude" "/home/user/.ssh/id_rsa" = true)
      by (apply covers_at_or_under; [reflexivity|exact Hunder]).
    vm_compute in H. discriminate.
  - intros Hunder.
    assert (H : covers "/home/user/project" "/home/user/.ssh/id_rsa" = true)
      by (apply covers_at_or_under; [reflexivity|exact Hunder]).
    vm_compute in H. discriminate.
Defined.

(** ** C8: nothing to evaluate *)

(** C8.  A Write or Edit request with no path or an empty path, a Bash
    request with no command or an empty command, and a request of any
    other kind are all allowed; none of them is denied. *)
Theorem nothing_to_evaluate (env : Env) (input_data : hook_input) :
  let name := get_default (tool_name input_data) "" in
  let payload := tool_input_of input_data in
  (name = "Write" \/ name = "Edit" ->
   file_path payload = None \/ file_path payload = Some "" ->
   main env (Some input_data) = Allow)
  /\ (name = "Bash" ->
      command payload = None \/ command payload = Some "" ->
      main env (Some input_data) = Allow)
  /\ (name <> "Write" -> name <> "Edit" -> name <> "Bash" ->
      main env (Some input_data) = Allow).
Proof.
  intros name payload. unfold main. fold name. fold payload.
  split; [|split].
  - intros Hname Hpath.
    assert (Hn : (name =? "Write") || (name =? "Edit") = true)
      by (destruct Hname as [-> | ->]; reflexivity).
    rewrite Hn. now destruct Hpath as [-> | ->].
  - intros -> Hcmd. cbn [String.eqb Ascii.eqb Bool.eqb orb].
    now destruct Hcmd as [-> | ->].
  - intros Hw He Hb.
    apply String.eqb_neq in Hw, He, Hb. now rewrite Hw, He, Hb.
Qed.

Lemma nothing_to_evaluate_witness :
  main sample_env
    (Some {| tool_name := Some "Edit";
             tool_input := Some {| file_path := Some ""; command := None |};
             cwd := None |}) = Allow
  /\ main sample_env
       (Some {| tool_name := Some "Bash"; tool_input := None; cwd := None |})
     = Allow
  /\ main sample_env
       (Some {| tool_name := Some "Read";
                tool_input :=
                  Some {| file_path := Some "/etc/passwd"; command := None |};
                cwd := Some "/" |}) = Allow.
Proof.
  split; [|split].
  - apply (proj1 (nothing_to_evaluate sample_env _)); [now right|now right].
  - apply (proj1 (proj2 (nothing_to_evaluate sample_env _)));
      [reflexivity|now left].
  - apply (proj2 (proj2 (nothing_to_evaluate sample_env _))); discriminate.
Defined.

(** ** C7: the order of the checks on a command *)

(** C7.  On a Bash request with a non-empty command the dispatcher takes
    the verdict of the Command Pattern Matcher if it denies, else that of
    the Indirect-Write Extractor if it denies, else that of the Copy/Move
    Extractor, each time as the text [BLOCKED: ] (after the shield sign),
    the checker's reason, a line break and [Command: ] with the command; it
    allows when none denies, and an exception of the Copy/Move Extractor
    is not caught.  So a command that two checkers
    would deny is denied with the reason of the earlier one, whatever the
    later one would answer. *)
Theorem dispatcher_order (env : Env) (input_data : hook_input) (cmd : string) :
  get_default (tool_name input_data) "" = "Bash" ->
  command (tool_input_of input_data) = Some cmd ->
  cmd <> "" ->
  let root := project_root_of env input_data in
  let verdict := main env (Some input_data) in
  (forall reason,
      check_bash_command cmd = (true, reason) ->
      verdict = Deny ("🛡️ BLOCKED: " ++ reason
                      ++ String "010" ("Command: " ++ cmd)))
  /\ (forall r0 reason,
         check_bash_command cmd = (false, r0) ->
         check_bash_write_paths env cmd root = (true, reason) ->
         verdict = Deny ("🛡️ BLOCKED: " ++ reason
                      ++ String "010" ("Command: " ++ cmd)))
  /\ (forall r0 r1 reason,
         check_bash_command cmd = (false, r0) ->
         check_bash_write_paths env cmd root = (false, r1) ->
         check_bash_copy_operations env cmd root = Ok (true, reason) ->
         verdict = Deny ("🛡️ BLOCKED: " ++ reason
                      ++ String "010" ("Command: " ++ cmd)))
  /\ (forall r0 r1 r2,
         check_bash_command cmd = (false, r0) ->
         check_bash_write_paths env cmd root = (false, r1) ->
         check_bash_copy_operations env cmd root = Ok (false, r2) ->
         verdict = Allow)
  /\ (forall r0 r1 e,
         check_bash_command cmd = (false, r0) ->
         check_bash_write_paths env cmd root = (false, r1) ->
         check_bash_copy_operations env cmd root = Raise e ->
         verdict = Uncaught e).
Proof.
  intros Hname Hcmd Hne root verdict.
  assert (Hmain : verdict =
    let (is_dangerous, reason) := check_bash_command cmd in
    if is_dangerous then Deny (blocked_command reason cmd)
    else
      let (is_blocked, reason) := check_bash_write_paths env cmd root in
      if is_blocked then Deny (blocked_command reason cmd)
      else
        match check_bash_copy_operations env cmd root with
        | Raise e => Uncaught e
        | Ok (is_blocked, reason) =>
            if is_blocked then Deny (blocked_command reason cmd) else Allow
        end).
  { unfold verdict, main. rewrite Hname, Hcmd. fold root.
    cbn [String.eqb Ascii.eqb Bool.eqb orb get_default].
    apply String.eqb_neq in Hne. now rewrite Hne. }
  rewrite Hmain. repeat split.
  - now intros reason ->.
  - now intros r0 reason -> ->.
  - now intros r0 r1 reason -> -> ->.
  - now intros r0 r1 r2 -> -> ->.
  - now intros r0 r1 e -> -> ->.
Qed.

Lemma dispatcher_order_witness :
  check_bash_command "echo hi > /etc/passwd"
    = (true, "Cannot redirect output to /etc/")
  /\ check_bash_write_paths sample_env "echo hi > /etc/passwd" sample_root
     = (true, "Cannot redirect output to protected path: /etc/passwd")
  /\ main sample_env (Some (bash_request "echo hi > /etc/passwd" None))
     = Deny ("🛡️ BLOCKED: Cannot redirect output to /etc/"
             ++ String "010" "Command: echo hi > /etc/passwd")
  /\ check_bash_copy_operations sample_env "cp /opt/a /opt/b > /opt/log"
       sample_root
     = Ok (true,
           "Cannot copy/move from '/opt/a' - source is outside project directory")
  /\ main sample_env (Some (bash_request "cp /opt/a /opt/b > /opt/log" None))
     = Deny ("🛡️ BLOCKED: Cannot redirect output to '/opt/log' - path is outside project directory"
             ++ String "010" "Command: cp /opt/a /opt/b > /opt/log").
Proof.
  split; [vm_compute; reflexivity|].
  split; [vm_compute; reflexivity|].
  split; [|split; [vm_compute; reflexivity|]].
  - apply (proj1 (dispatcher_order sample_env
                    (bash_request "echo hi > /etc/passwd" None)
                    "echo hi > /etc/passwd" eq_refl eq_refl
                    ltac:(discriminate))).
    vm_compute. reflexivity.
  - apply (proj1 (proj2 (dispatcher_order sample_env
                    (bash_request "cp /opt/a /opt/b > /opt/log" None)
                    "cp /opt/a /opt/b > /opt/log" eq_refl eq_refl
                    ltac:(discriminate))) "").
    + vm_compute. reflexivity.
    + vm_compute. reflexivity.
Defined.

(** ** Matching ignores case *)

Section IgnoreCase.
Import Re.

Ltac by_cases_on a :=
  destruct a as [[] [] [] [] [] [] [] []]; reflexivity.

Lemma lower_idem (a : ascii) : lower (lower a) = lower a.
Proof. by_cases_on a. Qed.

Lemma upper_lower (a : ascii) : upper (lower a) = upper a.
Proof. by_cases_on a. Qed.

Lemma case_variant (a : ascii) : a = lower a \/ a = upper a.
Proof.
  destruct a as [[] [] [] [] [] [] [] []];
    first [left; reflexivity | right; reflexivity].
Qed.

Lemma is_space_lower (a : ascii) : is_space (lower a) = is_space a.
Proof. by_cases_on a. Qed.

Lemma is_word_lower (a : ascii) : is_word (lower a) = is_word a.
Proof. by_cases_on a. Qed.

Lemma newline_lower (a : ascii) :
  Ascii.eqb (lower a) "010" = Ascii.eqb a "010".
Proof. by_cases_on a. Qed.

Lemma caseless_agree (p : ascii -> bool) (a b : ascii) :
  caseless p -> lower a = lower b -> p a = p b.
Proof. intros Hp H. now rewrite <- (Hp a), <- (Hp b), H. Qed.

Lemma lit_matches_caseless (c : ascii) : caseless (lit_matches true c).
Proof. intros a. unfold lit_matches. now rewrite lower_idem. Qed.

Lemma set_matches_caseless (negate : bool) (items : list item) :
  caseless (set_matches true negate items).
Proof.
  intros a. unfold set_matches. f_equal. cbn [andb].
  rewrite lower_idem, upper_lower.
  destruct (case_variant a) as [H|H]; rewrite H at 4;
    destruct (in_items (lower a) items), (in_items (upper a) items);
    reflexivity.
Qed.

Lemma lower_str_length (s : string) :
  String.length (lower_str s) = String.length s.
Proof. induction s; simpl; congruence. Qed.

Lemma sim_length (st st' : mstate) :
  sim st st' -> String.length (rest st) = String.length (rest st').
Proof.
  intros [_ H]. now rewrite <- (lower_str_length (rest st)), H, lower_str_length.
Qed.

Section Simulation.
Variables A A' : Type.
Variable Q : A -> A' -> Prop.

Lemma or_else_rel (a b : option A) (a' b' : option A') :
  opt_rel Q a a' -> opt_rel Q b b' -> opt_rel Q (or_else a b) (or_else a' b').
Proof. destruct a, a'; simpl; tauto. Qed.

Lemma eat_sim (p : ascii -> bool) (st st' : mstate)
    (k : mstate -> option A) (k' : mstate -> option A') :
  caseless p -> sim st st' -> conts Q k k' ->
  opt_rel Q (eat p st k) (eat p st' k').
Proof.
  intros Hp [Hb Hr] Hk. unfold eat.
  destruct (rest st) as [|a s], (rest st') as [|b s']; simpl in Hr;
    try discriminate; [exact I|].
  injection Hr as Hab Hs.
  rewrite (caseless_agree p a b Hp Hab).
  destruct (p b); [|exact I].
  apply Hk. split; simpl; [now rewrite Hab|assumption].
Qed.

Lemma at_boundary_sim (st st' : mstate) :
  sim st st' -> at_boundary st = at_boundary st'.
Proof.
  intros [Hb Hr]. unfold at_boundary. f_equal.
  - destruct (before st) as [a|], (before st') as [b|]; simpl in *;
      try discriminate; [|reflexivity].
    injection Hb as Hb. now apply caseless_agree; [exact is_word_lower|].
  - destruct (rest st) as [|a s], (rest st') as [|b s']; simpl in *;
      try discriminate; [reflexivity|].
    injection Hr as Hab _. now apply caseless_agree; [exact is_word_lower|].
Qed.

Lemma repeat_greedy_sim
    (body : mstate -> (mstate -> option A) -> option A)
    (body' : mstate -> (mstate -> option A') -> option A')
    (k : mstate -> option A) (k' : mstate -> option A') :
  (forall st st' c c', sim st st' -> conts Q c c' ->
                       opt_rel Q (body st c) (body' st' c')) ->
  conts Q k k' ->
  forall fuel st st', sim st st' ->
    opt_rel Q (repeat_greedy body k fuel st) (repeat_greedy body' k' fuel st').
Proof.
  intros Hbody Hk. induction fuel as [|fuel IH]; intros st st' Hst; simpl.
  - now apply Hk.
  - apply or_else_rel; [|now apply Hk].
    apply Hbody; [assumption|]. intros x x' Hx.
    unfold progress. rewrite (sim_length _ _ Hst), (sim_length _ _ Hx).
    destruct (Nat.ltb _ _); [now apply IH|exact I].
Qed.

Lemma run_sim (r : regex) :
  forall st st' k k', sim st st' -> conts Q k k' ->
    opt_rel Q (run true r st k) (run true r st' k').
Proof.
  induction r as [|c| | |negate items| |r1 IH1 r2 IH2|r1 IH1 r2 IH2
                 |r IH|r IH|r IH|n r IH];
    intros st st' k k' Hst Hk; cbn [run].
  - now apply Hk.
  - apply eat_sim; auto using lit_matches_caseless.
  - apply eat_sim; auto. intros a. now rewrite newline_lower.
  - apply eat_sim; auto. exact is_space_lower.
  - apply eat_sim; auto using set_matches_caseless.
  - rewrite (at_boundary_sim _ _ Hst). destruct (at_boundary st'); [|exact I].
    now apply Hk.
  - apply IH1; [assumption|]. intros x x' Hx. now apply IH2.
  - apply or_else_rel; [now apply IH1|now apply IH2].
  - rewrite (sim_length _ _ Hst). now apply repeat_greedy_sim.
  - apply IH; [assumption|]. intros x x' Hx.
    rewrite (sim_length _ _ Hx). now apply repeat_greedy_sim.
  - apply or_else_rel; [now apply IH|now apply Hk].
  - apply IH; [assumption|]. intros x x' Hx. apply Hk.
    destruct Hx as [Hb Hr]. now split.
Qed.

End Simulation.

(** The leftmost match exists in one text exactly when it exists in the
    other. *)
Lemma search_from_sim (r : regex) (s s' : string) :
  forall b b',
    option_map lower b = option_map lower b' ->
    lower_str s = lower_str s' ->
    opt_rel (fun _ _ => True) (search_from true r b s) (search_from true r b' s').
Proof.
  revert s'. induction s as [|a s IH]; intros s' b b' Hb Hs;
    destruct s' as [|a' s']; simpl in Hs; try discriminate.
  - cbn [search_from]. unfold match_at.
    pose proof (@run_sim match_obj match_obj (fun _ _ => True) r
                  {| before := b; rest := ""; groups := [] |}
                  {| before := b'; rest := ""; groups := [] |}
                  (fun st' => Some {| m_groups := groups st'; m_end := st' |})
                  (fun st' => Some {| m_groups := groups st'; m_end := st' |}))
      as H.
    destruct (run true r _ _), (run true r _ _); simpl in *; auto;
      apply H; try (split; simpl; auto); intros x x' _; exact I.
  - injection Hs as Ha Hs. cbn [search_from]. unfold match_at.
    pose proof (@run_sim match_obj match_obj (fun _ _ => True) r
                  {| before := b; rest := String a s; groups := [] |}
                  {| before := b'; rest := String a' s'; groups := [] |}
                  (fun st' => Some {| m_groups := groups st'; m_end := st' |})
                  (fun st' => Some {| m_groups := groups st'; m_end := st' |}))
      as H.
    assert (Hrun : opt_rel (fun _ _ => True)
              (run true r {| before := b; rest := String a s; groups := [] |}
                 (fun st' => Some {| m_groups := groups st'; m_end := st' |}))
              (run true r {| before := b'; rest := String a' s'; groups := [] |}
                 (fun st' => Some {| m_groups := groups st'; m_end := st' |}))).
    { apply H; [split; simpl; [assumption|now rewrite Ha, Hs]|].
      intros x x' _. exact I. }
    destruct (run true r _ _), (run true r _ _); simpl in Hrun; try tauto.
    apply IH; [simpl; now rewrite Ha|assumption].
Qed.

End IgnoreCase.

Lemma check_bash_command_ignores_case (c c' : string) :
  lower_str c = lower_str c' -> check_bash_command c = check_bash_command c'.
Proof.
  intros H. unfold check_bash_command. f_equal. apply first_some_ext.
  intros [pattern reason]. unfold re_search.
  destruct (ReParse.compile pattern) as [r|]; [|reflexivity].
  pose proof (search_from_sim r c c' None None eq_refl H) as Hs.
  destruct (Re.search_from true r None c), (Re.search_from true r None c');
    simpl in Hs; tauto.
Qed.

(** ** C2: the Command Pattern Matcher *)

Lemma first_some_from {A B : Type} (f : A -> option B) (l : list A) (b : B) :
  first_some f l = Some b -> exists x, In x l /\ f x = Some b.
Proof.
  induction l as [|y l IH]; simpl; [discriminate|].
  destruct (f y) as [b'|] eqn:Hy.
  - intros [= <-]. exists y. auto.
  - intros H. destruct (IH H) as (x & Hin & Hx). exists x. auto.
Qed.

(** Every pattern of the three tables is a pattern of the fragment. *)
Lemma tables_compile :
  forallb (fun p => match ReParse.compile p with Some _ => true | None => false end)
    (map fst DANGEROUS_BASH_PATTERNS ++ map fst BASH_WRITE_PATTERNS
     ++ BASH_COPY_PATTERNS)%list = true.
Proof. vm_compute. reflexivity. Qed.

Lemma dangerous_reasons_not_empty :
  forall pattern reason,
    In (pattern, reason) DANGEROUS_BASH_PATTERNS -> reason <> "".
Proof.
  intros pattern reason Hin.
  assert (H : Forall (fun pr => snd pr <> "") DANGEROUS_BASH_PATTERNS)
    by (repeat constructor; discriminate).
  rewrite Forall_forall in H. exact (H _ Hin).
Qed.

(** C2.  The matcher flags a representative command of each category with
    the reason of the first pattern that matches, and does not flag
    [ls -la]; a reason it returns is never empty; and its answer does not
    depend on the case of the letters of the command. *)
Theorem command_pattern_matcher :
  check_bash_command "rm -rf /"
    = (true, "Cannot delete files with absolute paths starting from root")
  /\ check_bash_command "chmod -R 777 /etc"
     = (true, "Cannot chmod system directories")
  /\ check_bash_command "dd of=/dev/sda"
     = (true, "Cannot write directly to devices with dd")
  /\ check_bash_command "systemctl stop sshd"
     = (true, "Cannot stop/disable system services")
  /\ check_bash_command "sudo rm -rf /tmp/x"
     = (true, "Cannot delete files with absolute paths starting from root")
  /\ check_bash_command "echo x > /etc/hosts"
     = (true, "Cannot redirect output to /etc/")
  /\ check_bash_command "iptables -F" = (true, "Cannot flush firewall rules")
  /\ check_bash_command "find / -type f -delete"
     = (true, "Cannot use find / with -delete")
  /\ check_bash_command "ls -la" = (false, "")
  /\ (forall c reason, check_bash_command c = (true, reason) -> reason <> "")
  /\ (forall c c',
         lower_str c = lower_str c' ->
         check_bash_command c = check_bash_command c').
Proof.
  do 9 (split; [vm_compute; reflexivity|]).
  split.
  - intros c reason H. unfold check_bash_command in H.
    destruct (first_some _ _) as [r|] eqn:Hfirst; [|discriminate].
    injection H as <-.
    apply first_some_from in Hfirst as ([pattern reason'] & Hin & Hx).
    destruct (re_search pattern c); [|discriminate].
    injection Hx as <-. exact (dangerous_reasons_not_empty _ _ Hin).
  - exact check_bash_command_ignores_case.
Qed.

Lemma command_pattern_matcher_witness :
  check_bash_command "cd /srv && SUDO Rm -rf build"
    = check_bash_command "cd /srv && sudo rm -rf build"
  /\ "Cannot use sudo rm" <> "".
Proof.
  destruct command_pattern_matcher
    as (_ & _ & _ & _ & _ & _ & _ & _ & _ & Hreason & Hcase).
  split.
  - apply Hcase. reflexivity.
  - apply (Hreason "cd /srv && sudo rm -rf build").
    vm_compute. reflexivity.
Defined.

(** ** The groups the extractors read always take part *)

Section MatchFacts.
Import Re.

Lemma onward_refl (st : mstate) : onward st st.
Proof. split; auto. Qed.

Lemma onward_trans (a b c : mstate) : onward a b -> onward b c -> onward a c.
Proof. intros [H1 G1] [H2 G2]. split; [lia|auto]. Qed.

Lemma lookup_set_group (n m : nat) (text : string) (gs : list (nat * string)) :
  taken m (set_group n text gs) <-> m = n \/ taken m gs.
Proof.
  unfold taken. induction gs as [|[i t] gs IH]; simpl.
  - destruct (Nat.eqb_spec n m); intuition congruence.
  - destruct (Nat.eqb_spec i n) as [->|Hin]; simpl.
    + destruct (Nat.eqb_spec n m); intuition congruence.
    + destruct (Nat.eqb_spec i m); [intuition congruence|exact IH].
Qed.

Lemma or_else_some {A : Type} (x y : option A) (a : A) :
  or_else x y = Some a -> x = Some a \/ y = Some a.
Proof. destruct x; simpl; auto. Qed.

Section Results.
Variable ignorecase : bool.
Variable A : Type.

Lemma eat_after (p : ascii -> bool) (st : mstate) (k : mstate -> option A)
    (a : A) :
  eat p st k = Some a ->
  exists st', k st' = Some a /\ onward st st'
              /\ String.length (rest st') < String.length (rest st).
Proof.
  unfold eat. destruct (rest st) as [|c s] eqn:E; [discriminate|].
  destruct (p c); [|discriminate]. intros H.
  eexists. split; [exact H|]. unfold onward. simpl. rewrite E. simpl.
  repeat split; auto.
Qed.

Lemma repeat_greedy_onward
    (body : mstate -> (mstate -> option A) -> option A)
    (k : mstate -> option A) (a : A) :
  (forall st c, body st c = Some a ->
                exists st', c st' = Some a /\ onward st st') ->
  forall fuel st,
    repeat_greedy body k fuel st = Some a ->
    exists st', k st' = Some a /\ onward st st'.
Proof.
  intros Hbody. induction fuel as [|fuel IH]; intros st H; simpl in H.
  - exists st. auto using onward_refl.
  - apply or_else_some in H as [H|H].
    + apply Hbody in H as (x & Hx & Hsx).
      destruct (progress st x); [|discriminate].
      apply IH in Hx as (st' & Hk & Hxs). exists st'.
      eauto using onward_trans.
    + exists st. auto using onward_refl.
Qed.

Lemma run_after (r : regex) :
  forall (st : mstate) (k : mstate -> option A) (a : A),
    run ignorecase r st k = Some a ->
    exists st', k st' = Some a /\ after r st st'.
Proof.
  induction r as [|c| | |negate items| |r1 IH1 r2 IH2|r1 IH1 r2 IH2
                 |r IH|r IH|r IH|n r IH];
    intros st k a H; cbn [run] in H.
  - exists st. repeat split; auto; discriminate.
  - apply eat_after in H as (st' & Hk & Ho & Hlt).
    exists st'. repeat split; auto; try apply Ho; discriminate.
  - apply eat_after in H as (st' & Hk & Ho & Hlt).
    exists st'. repeat split; auto; try apply Ho; discriminate.
  - apply eat_after in H as (st' & Hk & Ho & Hlt).
    exists st'. repeat split; auto; try apply Ho; discriminate.
  - apply eat_after in H as (st' & Hk & Ho & Hlt).
    exists st'. repeat split; auto; try apply Ho; discriminate.
  - destruct (at_boundary st); [|discriminate].
    exists st. repeat split; auto; discriminate.
  - apply IH1 in H as (x & Hx & (Ho1 & Hn1 & Hc1)).
    apply IH2 in Hx as (st' & Hk & (Ho2 & Hn2 & Hc2)).
    exists st'. split; [assumption|]. split; [|split].
    + eauto using onward_trans.
    + simpl. intros Hnull. apply andb_false_iff in Hnull as [Hnull|Hnull].
      * specialize (Hn1 Hnull). destruct Ho2. lia.
      * specialize (Hn2 Hnull). destruct Ho1. lia.
    + simpl. intros n Hn. apply orb_true_iff in Hn as [Hn|Hn]; auto.
      apply Ho2. auto.
  - apply or_else_some in H as [H|H].
    + apply IH1 in H as (st' & Hk & (Ho & Hn & Hc)). exists st'.
      split; [assumption|]. split; [assumption|]. simpl. split.
      * intros Hnull. apply orb_false_iff in Hnull as [Hnull _]. auto.
      * intros n Hcl. apply andb_true_iff in Hcl as [Hcl _]. auto.
    + apply IH2 in H as (st' & Hk & (Ho & Hn & Hc)). exists st'.
      split; [assumption|]. split; [assumption|]. simpl. split.
      * intros Hnull. apply orb_false_iff in Hnull as [_ Hnull]. auto.
      * intros n Hcl. apply andb_true_iff in Hcl as [_ Hcl]. auto.
  - apply repeat_greedy_onward in H as (st' & Hk & Ho).
    + exists st'. repeat split; auto; try apply Ho; discriminate.
    + intros x c Hx. apply IH in Hx as (x' & Hc & (Ho & _)). eauto.
  - apply IH in H as (x & Hx & (Ho1 & Hn1 & Hc1)).
    apply repeat_greedy_onward in Hx as (st' & Hk & Ho2).
    + exists st'. split; [assumption|]. split; [|split].
      * eauto using onward_trans.
      * simpl. intros Hnull. specialize (Hn1 Hnull). destruct Ho2. lia.
      * simpl. intros n Hn. apply Ho2. auto.
    + intros y c Hy. apply IH in Hy as (y' & Hc & (Ho & _)). eauto.
  - apply or_else_some in H as [H|H].
    + apply IH in H as (st' & Hk & (Ho & _)). exists st'.
      repeat split; auto; try apply Ho; discriminate.
    + exists st. repeat split; auto; discriminate.
  - apply IH in H as (x & Hx & (Ho & Hn & Hc)).
    exists (close_group n st x). split; [assumption|].
    split; [|split]; simpl.
    + split; [apply Ho|]. intros m Hm. apply lookup_set_group.
      right. now apply Ho.
    + exact Hn.
    + intros m Hm. apply lookup_set_group.
      apply orb_true_iff in Hm as [Hm|Hm]; [|right; auto].
      apply Nat.eqb_eq in Hm. auto.
Qed.

End Results.

Lemma match_at_after (ignorecase : bool) (r : regex) (b : option ascii)
    (s : string) (m : match_obj) :
  match_at ignorecase r b s = Some m ->
  (nullable r = false -> String.length (rest (m_end m)) < String.length s)
  /\ forall n, closes n r = true -> taken n (m_groups m).
Proof.
  unfold match_at. intros H.
  apply run_after in H as (st' & Hk & (_ & Hn & Hc)).
  injection Hk as <-. simpl in *. auto.
Qed.

Lemma search_from_taken (ignorecase : bool) (r : regex) (n : nat) :
  closes n r = true ->
  forall s b m,
    search_from ignorecase r b s = Some m -> taken n (m_groups m).
Proof.
  intros Hn. induction s as [|a s IH]; intros b m H; cbn [search_from] in H.
  - destruct (match_at ignorecase r b "") as [m'|] eqn:E; [|discriminate].
    injection H as <-. now apply (proj2 (match_at_after _ _ _ _ _ E)).
  - destruct (match_at ignorecase r b (String a s)) as [m'|] eqn:E.
    + injection H as <-. now apply (proj2 (match_at_after _ _ _ _ _ E)).
    + eauto.
Qed.

Lemma finditer_from_taken (ignorecase : bool) (r : regex) (n : nat) :
  closes n r = true ->
  forall fuel b s m,
    In m (finditer_from fuel ignorecase r b s) -> taken n (m_groups m).
Proof.
  intros Hn. induction fuel as [|fuel IH]; intros b s m H; simpl in H;
    [contradiction|].
  destruct (search_from ignorecase r b s) as [m'|] eqn:E; [|contradiction].
  destruct H as [<-|H]; [now apply (search_from_taken _ _ _ Hn _ _ _ E)|].
  destruct (Nat.ltb _ _); [eauto|].
  destruct (rest (m_end m')); [contradiction|eauto].
Qed.

End MatchFacts.

Lemma extractor_patterns_read_groups :
  forallb (reads_groups [1]) (map fst BASH_WRITE_PATTERNS) = true
  /\ forallb (reads_groups [1; 2]) BASH_COPY_PATTERNS = true.
Proof. split; vm_compute; reflexivity. Qed.

Lemma re_finditer_taken (ns : list nat) (pattern text : string)
    (m : Re.match_obj) (n : nat) :
  reads_groups ns pattern = true -> In n ns ->
  In m (re_finditer pattern text) -> taken n (Re.m_groups m).
Proof.
  unfold reads_groups, re_finditer.
  destruct (ReParse.compile pattern) as [r|]; [|discriminate].
  intros H Hn Hm. apply andb_true_iff in H as [_ H].
  rewrite forallb_forall in H.
  exact (finditer_from_taken _ _ _ (H n Hn) _ _ _ _ Hm).
Qed.

(** Every match the extractors visit carries the text of the groups they
    read. *)
Lemma extractor_groups_taken :
  (forall pattern desc text m,
      In (pattern, desc) BASH_WRITE_PATTERNS ->
      In m (re_finditer pattern text) ->
      Re.lookup 1 (Re.m_groups m) = Some (Re.group m 1))
  /\ (forall pattern text m,
         In pattern BASH_COPY_PATTERNS ->
         In m (re_finditer pattern text) ->
         Re.lookup 1 (Re.m_groups m) = Some (Re.group m 1)
         /\ Re.lookup 2 (Re.m_groups m) = Some (Re.group m 2)).
Proof.
  destruct extractor_patterns_read_groups as [Hw Hc].
  rewrite forallb_forall in Hw, Hc.
  assert (Hgroup : forall m n, taken n (Re.m_groups m) ->
            Re.lookup n (Re.m_groups m) = Some (Re.group m n)).
  { intros m n H. unfold taken, Re.group in *.
    now destruct (Re.lookup n (Re.m_groups m)). }
  split.
  - intros pattern desc text m Hin Hm. apply Hgroup.
    apply (re_finditer_taken [1] pattern text); simpl; auto.
    apply Hw. now apply (in_map fst) in Hin.
  - intros pattern text m Hin Hm.
    split; apply Hgroup;
      apply (re_finditer_taken [1; 2] pattern text); simpl; auto.
Qed.

(** * Further properties of the hook *)

(** ** Write and Edit requests *)

(** [main] on a Write or Edit request with a path. *)
Lemma main_write (env : Env) (input_data : hook_input) (path : string) :
  get_default (tool_name input_data) "" = "Write"
  \/ get_default (tool_name input_data) "" = "Edit" ->
  file_path (tool_input_of input_data) = Some path ->
  path <> "" ->
  main env (Some input_data) =
    if fst (is_protected_path env path)
    then Deny (BLOCKED ++ snd (is_protected_path env path))
    else if is_path_outside_project env path (project_root_of env input_data)
         then Deny (BLOCKED ++ "Cannot write to '" ++ path
                    ++ "' - path is outside project directory '"
                    ++ project_root_of env input_data ++ "'")
         else Allow.
Proof.
  intros Hname Hpath Hne. unfold main.
  assert (Hn : (get_default (tool_name input_data) "" =? "Write")
               || (get_default (tool_name input_data) "" =? "Edit") = true)
    by (destruct Hname as [-> | ->]; reflexivity).
  rewrite Hn, Hpath. cbn [get_default].
  apply String.eqb_neq in Hne. rewrite Hne.
  now destruct (is_protected_path env path) as [[] reason].
Qed.

Lemma is_protected_path_under (env : Env) (path abs_path root : string) :
  resolve env path = Ok abs_path ->
  In root PROTECTED_DIRECTORIES ->
  at_or_under root abs_path ->
  is_protected_path env path = (true, protected_reason root).
Proof.
  intros Hres Hin Hunder.
  rewrite (is_protected_path_resolved env path abs_path Hres),
    first_protected_find.
  rewrite (find_unique (fun d => covers d abs_path) PROTECTED_DIRECTORIES root);
    auto.
  - apply covers_at_or_under; auto using protected_no_trailing_sep.
  - intros d Hd Hc.
    apply (separated_unique PROTECTED_DIRECTORIES abs_path);
      auto using protected_separated.
    apply covers_at_or_under; auto using protected_no_trailing_sep.
Qed.

Lemma is_protected_path_not_under (env : Env) (path abs_path : string) :
  resolve env path = Ok abs_path ->
  is_protected_path env path = (false, "") <->
  forall root, In root PROTECTED_DIRECTORIES -> ~ at_or_under root abs_path.
Proof.
  intros Hres.
  rewrite (is_protected_path_resolved env path abs_path Hres),
    first_protected_find.
  split.
  - intros H root Hin Hunder.
    apply covers_at_or_under in Hunder;
      [|now apply protected_no_trailing_sep].
    destruct (find _ _) as [d|] eqn:Hfind; [discriminate|].
    now rewrite (find_none _ _ Hfind root Hin) in Hunder.
  - intros H. destruct (find _ _) as [d|] eqn:Hfind; [|reflexivity].
    apply find_some in Hfind as [Hd Hc]. exfalso. apply (H d Hd).
    apply covers_at_or_under; auto using protected_no_trailing_sep.
Qed.

(** A Write or Edit of a path that resolves to a protected root or under
    one is denied with the reason of that root, whatever the project root,
    the working-directory hint and the configuration directory: the
    protected directories come before the project boundary and its
    carve-outs. *)
Theorem write_protected_denied (env : Env) (input_data : hook_input)
    (path abs_path root : string) :
  get_default (tool_name input_data) "" = "Write"
  \/ get_default (tool_name input_data) "" = "Edit" ->
  file_path (tool_input_of input_data) = Some path ->
  path <> "" ->
  resolve env path = Ok abs_path ->
  In root PROTECTED_DIRECTORIES ->
  at_or_under root abs_path ->
  main env (Some input_data) = Deny (BLOCKED ++ protected_reason root).
Proof.
  intros Hname Hpath Hne Hres Hin Hunder.
  rewrite (main_write env input_data path Hname Hpath Hne).
  now rewrite (is_protected_path_under env path abs_path root Hres Hin Hunder).
Qed.

Lemma write_protected_denied_witness :
  main
    {| environ := fun name =>
         if String.eqb name "CLAUDE_PROJECT_DIR" then Some "/etc/nginx"
         else if String.eqb name "CLAUDE_CONFIG_DIR" then Some "/etc/nginx/.claude"
         else None;
       pw_uid_dir := None;
       pw_nam_dir := fun _ => None;
       getcwd := "/etc/nginx" |}
    (Some (write_request "Edit" "conf.d/../.claude/site.conf" None))
  = Deny (BLOCKED ++ protected_reason "/etc").
Proof.
  apply (write_protected_denied _ _ "conf.d/../.claude/site.conf"
           "/etc/nginx/.claude/site.conf" "/etc").
  - now right.
  - reflexivity.
  - discriminate.
  - vm_compute. reflexivity.
  - simpl. tauto.
  - right. exists "nginx/.claude/site.conf". reflexivity.
Defined.

(** The boundary check answers "inside" for a path at or under the
    resolved project root, when that root does not end with a separator,
    whether the configuration directory resolves or not. *)
Lemma inside_project (env : Env) (path project_root abs_file : string) :
  resolve env path = Ok abs_file ->
  Py.endswith (PosixPath.abspath env project_root) Py.sep = false ->
  at_or_under (PosixPath.abspath env project_root) abs_file ->
  is_path_outside_project env path project_root = false.
Proof.
  intros Hres Hend Hunder.
  destruct (config_root env) as [abs_config|e] eqn:Hc.
  - destruct (project_boundary_checker env path project_root abs_file
                abs_config Hres Hc) as (_ & _ & Hin & _).
    now apply Hin.
  - unfold is_path_outside_project, config_root in *. rewrite Hres. simpl.
    now destruct (PosixPath.expanduser env (claude_config_dir env)).
Qed.

(** A Write or Edit of a path that resolves to the project root or under
    it, and to no protected root and under none, is allowed, when the
    resolved project root does not end with a separator. *)
Theorem write_inside_project_allowed (env : Env) (input_data : hook_input)
    (path abs_path : string) :
  get_default (tool_name input_data) "" = "Write"
  \/ get_default (tool_name input_data) "" = "Edit" ->
  file_path (tool_input_of input_data) = Some path ->
  path <> "" ->
  resolve env path = Ok abs_path ->
  (forall root, In root PROTECTED_DIRECTORIES -> ~ at_or_under root abs_path) ->
  let abs_project :=
    PosixPath.abspath env (project_root_of env input_data) in
  Py.endswith abs_project Py.sep = false ->
  at_or_under abs_project abs_path ->
  main env (Some input_data) = Allow.
Proof.
  intros Hname Hpath Hne Hres Hnot abs_project Hend Hunder.
  rewrite (main_write env input_data path Hname Hpath Hne).
  rewrite (proj2 (is_protected_path_not_under env path abs_path Hres) Hnot).
  cbn [fst].
  now rewrite (inside_project env path _ abs_path Hres Hend Hunder).
Qed.

Lemma write_inside_project_allowed_witness :
  main sample_env
    (Some (write_request "Write" "src/../src/main.go" None))
  = Allow.
Proof.
  apply (write_inside_project_allowed sample_env _ "src/../src/main.go"
           "/home/user/project/src/main.go").
  - now left.
  - reflexivity.
  - discriminate.
  - vm_compute. reflexivity.
  - intros root Hroot Hunder.
    apply covers_at_or_under in Hunder;
      [|now apply protected_no_trailing_sep].
    revert root Hroot Hunder.
    apply (proj1 (Forall_forall
             (fun root => covers root "/home/user/project/src/main.go" = true
                          -> False)
             PROTECTED_DIRECTORIES)).
    repeat constructor; vm_compute; discriminate.
  - reflexivity.
  - right. exists "src/main.go". reflexivity.
Defined.

Lemma first_protected_flag (abs_path : string) (dirs : list string) :
  first_protected abs_path dirs = (false, "")
  \/ exists d, In d dirs
               /\ first_protected abs_path dirs = (true, protected_reason d).
Proof.
  rewrite first_protected_find.
  destruct (find _ _) as [d|] eqn:Hfind; [right|now left].
  exists d. split; [|reflexivity]. now apply find_some in Hfind.
Qed.

Lemma is_protected_path_flag (env : Env) (path : string) :
  is_protected_path env path = (false, "")
  \/ exists d, In d PROTECTED_DIRECTORIES
               /\ is_protected_path env path = (true, protected_reason d).
Proof.
  unfold is_protected_path.
  destruct (resolve env path) as [abs_path|e]; cbn [bind try_except];
    [|now left].
  apply first_protected_flag.
Qed.

(** A Write or Edit that is allowed stays clear of the protected
    directories and within the zones open to writing: when the path and the
    configuration directory resolve, the resolved path is at or under no
    protected root, and it is at or under the configuration directory,
    under a temporary directory, or at or under the resolved project
    root. *)
Theorem write_allowed_is_contained (env : Env) (input_data : hook_input)
    (path abs_path abs_config : string) :
  get_default (tool_name input_data) "" = "Write"
  \/ get_default (tool_name input_data) "" = "Edit" ->
  file_path (tool_input_of input_data) = Some path ->
  path <> "" ->
  resolve env path = Ok abs_path ->
  config_root env = Ok abs_config ->
  main env (Some input_data) = Allow ->
  (forall root, In root PROTECTED_DIRECTORIES -> ~ at_or_under root abs_path)
  /\ (at_or_under abs_config abs_path
      \/ nested_under "/tmp" abs_path
      \/ nested_under "/private/tmp" abs_path
      \/ at_or_under
           (PosixPath.abspath env (project_root_of env input_data)) abs_path).
Proof.
  intros Hname Hpath Hne Hres Hcfg Hmain.
  rewrite (main_write env input_data path Hname Hpath Hne) in Hmain.
  destruct (is_protected_path_flag env path) as [Hp|(d & _ & Hp)];
    rewrite Hp in Hmain; cbn [fst snd] in Hmain; [|discriminate].
  split.
  - now apply (is_protected_path_not_under env path abs_path Hres).
  - rewrite (is_path_outside_project_resolved env path _ abs_path abs_config
               Hres Hcfg) in Hmain.
    destruct (covers abs_config abs_path) eqn:Hc;
      [left; now apply covers_under|].
    destruct (is_tmp abs_path) eqn:Ht.
    { apply is_tmp_iff in Ht. tauto. }
    destruct (covers (PosixPath.abspath env (project_root_of env input_data))
                abs_path) eqn:Hr.
    { do 3 right. now apply covers_under. }
    discriminate.
Qed.

Lemma write_allowed_is_contained_witness :
  (forall root, In root PROTECTED_DIRECTORIES ->
                ~ at_or_under root "/home/user/.claude/plans/next.md")
  /\ (at_or_under "/home/user/.claude" "/home/user/.claude/plans/next.md"
      \/ nested_under "/tmp" "/home/user/.claude/plans/next.md"
      \/ nested_under "/private/tmp" "/home/user/.claude/plans/next.md"
      \/ at_or_under "/srv/site" "/home/user/.claude/plans/next.md").
Proof.
  apply (write_allowed_is_contained sample_env
           (write_request "Write" "~/.claude/plans/next.md" (Some "/srv/site"))
           "~/.claude/plans/next.md" "/home/user/.claude/plans/next.md"
           "/home/user/.claude").
  - now left.
  - reflexivity.
  - discriminate.
  - vm_compute. reflexivity.
  - vm_compute. reflexivity.
  - vm_compute. reflexivity.
Defined.

Lemma tmp_not_protected (rest : string) :
  first_protected ("/tmp/" ++ rest) PROTECTED_DIRECTORIES = (false, "")
  /\ first_protected ("/private/tmp/" ++ rest) PROTECTED_DIRECTORIES
     = (false, "").
Proof.
  unfold PROTECTED_DIRECTORIES. cbn [first_protected append].
  rewrite !startswith_cons. cbn [Ascii.eqb Bool.eqb andb orb String.eqb].
  split; reflexivity.
Qed.

(** A Write or Edit of a path that resolves under [/tmp] or under
    [/private/tmp] is allowed, whatever the project root and the
    configuration directory: such a path passes both checks. *)
Theorem write_tmp_allowed (env : Env) (input_data : hook_input)
    (path abs_path : string) :
  get_default (tool_name input_data) "" = "Write"
  \/ get_default (tool_name input_data) "" = "Edit" ->
  file_path (tool_input_of input_data) = Some path ->
  path <> "" ->
  resolve env path = Ok abs_path ->
  nested_under "/tmp" abs_path \/ nested_under "/private/tmp" abs_path ->
  main env (Some input_data) = Allow.
Proof.
  intros Hname Hpath Hne Hres Htmp.
  rewrite (main_write env input_data path Hname Hpath Hne).
  assert (Hp : is_protected_path env path = (false, "")).
  { rewrite (is_protected_path_resolved env path abs_path Hres).
    destruct Htmp as [[rest ->]|[rest ->]]; apply tmp_not_protected. }
  rewrite Hp. cbn [fst].
  assert (Ho : is_path_outside_project env path
                 (project_root_of env input_data) = false).
  { apply is_tmp_iff in Htmp.
    destruct (config_root env) as [abs_config|e] eqn:Hc.
    - destruct (project_boundary_checker env path
                  (project_root_of env input_data) abs_path abs_config
                  Hres Hc) as (_ & Hin & _).
      now apply Hin.
    - unfold is_path_outside_project, config_root in *. rewrite Hres. simpl.
      now destruct (PosixPath.expanduser env (claude_config_dir env)). }
  now rewrite Ho.
Qed.

Lemma write_tmp_allowed_witness :
  main sample_env
    (Some (write_request "Edit" "/private/tmp/build/../out.log" (Some "/")))
  = Allow.
Proof.
  apply (write_tmp_allowed sample_env _ "/private/tmp/build/../out.log"
           "/private/tmp/out.log").
  - now right.
  - reflexivity.
  - discriminate.
  - vm_compute. reflexivity.
  - right. exists "out.log". reflexivity.
Defined.

(** ** The extractors as searches *)

Lemma first_some_none {A B : Type} (f : A -> option B) (l : list A) :
  first_some f l = None <-> forall x, In x l -> f x = None.
Proof.
  induction l as [|y l IH]; simpl.
  - split; [intros _ x []|reflexivity].
  - destruct (f y) eqn:Hy.
    + split; [discriminate|]. intros H. rewrite <- Hy. apply H. now left.
    + rewrite IH. split.
      * intros H x [<-|Hx]; auto.
      * intros H x Hx. apply H. now right.
Qed.

Lemma check_write_target_blocks (env : Env)
    (project_root desc target_path : string) :
  check_write_target env project_root desc target_path =
    if target_blocks env project_root target_path
    then Some (if fst (is_protected_path env target_path)
               then protected_target_reason desc target_path
               else outside_reason desc target_path)
    else None.
Proof.
  unfold check_write_target, target_blocks, skipped.
  destruct (Py.startswith target_path "/dev/"); [reflexivity|].
  destruct (is_tmp target_path); [reflexivity|].
  destruct (Py.startswith target_path "/"); [|reflexivity].
  destruct (is_protected_path env target_path) as [[] reason];
    [reflexivity|].
  cbn [negb orb andb fst].
  now destruct (is_path_outside_project env target_path project_root).
Qed.

Lemma check_bash_write_paths_flag (env : Env) (command project_root : string) :
  fst (check_bash_write_paths env command project_root)
    = existsb (fun dt => target_blocks env project_root (snd dt))
        (write_targets command).
Proof.
  rewrite check_bash_write_paths_scan.
  induction (write_targets command) as [|[d t] l IH]; [reflexivity|].
  cbn [first_some existsb snd]. rewrite check_write_target_blocks.
  now destruct (target_blocks env project_root t).
Qed.

(** The Indirect-Write Extractor blocks a command exactly when one of the
    targets it visits is not passed over and is protected or outside the
    project; the reason it gives is the one of such a target, naming its
    operation kind and the token as written. *)
Theorem write_paths_blocked_iff (env : Env) (command project_root : string) :
  fst (check_bash_write_paths env command project_root)
    = existsb (fun dt => target_blocks env project_root (snd dt))
        (write_targets command)
  /\ forall reason,
       check_bash_write_paths env command project_root = (true, reason) ->
       exists desc target_path,
         In (desc, target_path) (write_targets command)
         /\ target_blocks env project_root target_path = true
         /\ (reason = protected_target_reason desc target_path
             \/ reason = outside_reason desc target_path).
Proof.
  rewrite check_bash_write_paths_scan.
  induction (write_targets command) as [|[d t] l [IHflag IHreason]].
  - split; [reflexivity|discriminate].
  - cbn [first_some existsb snd]. rewrite check_write_target_blocks.
    destruct (target_blocks env project_root t) eqn:Hb.
    + split; [reflexivity|]. intros reason [= <-].
      exists d, t. split; [now left|]. split; [assumption|].
      destruct (fst (is_protected_path env t)); auto.
    + cbn [orb]. split; [exact IHflag|].
      intros reason H. destruct (IHreason reason H) as (d' & t' & Hin & Hrest).
      exists d', t'. split; [now right|assumption].
Qed.

Lemma write_paths_blocked_iff_witness :
  exists desc target_path,
    In (desc, target_path)
      (write_targets "date > now.txt; date >> /srv/log/now.txt")
    /\ target_blocks sample_env sample_root target_path = true
    /\ ("Cannot redirect output to '/srv/log/now.txt' - path is outside project directory"
        = protected_target_reason desc target_path
        \/ "Cannot redirect output to '/srv/log/now.txt' - path is outside project directory"
           = outside_reason desc target_path).
Proof.
  apply (proj2 (write_paths_blocked_iff sample_env
                  "date > now.txt; date >> /srv/log/now.txt" sample_root)).
  vm_compute. reflexivity.
Defined.

Lemma first_some_r_none {A B : Type} (f : A -> result (option B))
    (l : list A) :
  first_some_r f l = Ok None <-> forall x, In x l -> f x = Ok None.
Proof.
  induction l as [|y l IH]; simpl.
  - split; [intros _ x []|reflexivity].
  - destruct (f y) as [[b|]|e] eqn:Hy; simpl.
    + split; [discriminate|]. intros H.
      specialize (H y (or_introl eq_refl)). congruence.
    + rewrite IH. split.
      * intros H x [<-|Hx]; auto.
      * intros H x Hx. apply H. now right.
    + split; [discriminate|]. intros H.
      specialize (H y (or_introl eq_refl)). congruence.
Qed.

Lemma first_some_r_raise {A B : Type} (f : A -> result (option B))
    (l : list A) (e : exn) :
  first_some_r f l = Raise e -> exists x, In x l /\ f x = Raise e.
Proof.
  induction l as [|y l IH]; simpl; [discriminate|].
  destruct (f y) as [[b|]|e'] eqn:Hy; simpl.
  - discriminate.
  - intros H. destruct (IH H) as (x & Hx & Hf). exists x. auto.
  - intros [= <-]. exists y. auto.
Qed.

(** [main] on a Bash request with a command. *)
Lemma main_bash (env : Env) (input_data : hook_input) (cmd : string) :
  get_default (tool_name input_data) "" = "Bash" ->
  command (tool_input_of input_data) = Some cmd ->
  cmd <> "" ->
  main env (Some input_data) =
    let root := project_root_of env input_data in
    if fst (check_bash_command cmd)
    then Deny (blocked_command (snd (check_bash_command cmd)) cmd)
    else if fst (check_bash_write_paths env cmd root)
         then Deny (blocked_command
                      (snd (check_bash_write_paths env cmd root)) cmd)
         else match check_bash_copy_operations env cmd root with
              | Raise e => Uncaught e
              | Ok (is_blocked, reason) =>
                  if is_blocked then Deny (blocked_command reason cmd)
                  else Allow
              end.
Proof.
  intros Hname Hcmd Hne. unfold main. rewrite Hname, Hcmd.
  cbn [String.eqb Ascii.eqb Bool.eqb orb get_default].
  apply String.eqb_neq in Hne. rewrite Hne. cbv zeta.
  destruct (check_bash_command cmd) as [[] r0]; [reflexivity|].
  now destruct (check_bash_write_paths env cmd _) as [[] r1].
Qed.

(** What [check_copy_paths] has checked when it lets a pair through. *)
Lemma check_copy_paths_none (env : Env)
    (project_root source_path dest_path : string) :
  check_copy_paths env project_root source_path dest_path = Ok None ->
  exists source_expanded dest_expanded,
    PosixPath.expanduser env source_path = Ok source_expanded
    /\ PosixPath.expanduser env dest_path = Ok dest_expanded
    /\ (unchecked_argument source_path = false ->
        is_tmp source_expanded = false ->
        is_path_outside_project env source_expanded project_root = false)
    /\ (unchecked_argument dest_path = false ->
        is_tmp dest_expanded = false ->
        fst (is_protected_path env dest_expanded) = false
        /\ is_path_outside_project env dest_expanded project_root = false).
Proof.
  unfold check_copy_paths, unchecked_argument.
  destruct (PosixPath.expanduser env source_path) as [s'|e]; [|discriminate].
  destruct (PosixPath.expanduser env dest_path) as [d'|e]; [|discriminate].
  cbn [bind]. intros H. exists s', d'.
  split; [reflexivity|split; [reflexivity|split]].
  - intros Hs Ht. apply negb_false_iff in Hs. rewrite Hs, Ht in H.
    now destruct (is_path_outside_project env s' project_root).
  - intros Hd Ht. apply negb_false_iff in Hd. rewrite Hd, Ht in H.
    destruct (if _ || _ then _ else _); [discriminate|].
    destruct (fst (is_protected_path env d')); [discriminate|].
    now destruct (is_path_outside_project env d' project_root).
Qed.

(** A Bash command that is allowed has passed every check: no dangerous
    pattern matches it; every redirection, append or tee target that is
    not passed over is neither protected nor outside the project; and of
    every [cp] or [mv] the source, when it is looked at and not under a
    temporary directory, is inside the project, and the destination, when
    it is looked at and not under a temporary directory, is neither
    protected nor outside the project. *)
Theorem bash_allowed_is_contained (env : Env) (input_data : hook_input)
    (cmd : string) :
  get_default (tool_name input_data) "" = "Bash" ->
  command (tool_input_of input_data) = Some cmd ->
  cmd <> "" ->
  main env (Some input_data) = Allow ->
  let root := project_root_of env input_data in
  (forall pattern reason,
      In (pattern, reason) DANGEROUS_BASH_PATTERNS ->
      re_search pattern cmd = None)
  /\ (forall desc target_path,
         In (desc, target_path) (write_targets cmd) ->
         skipped target_path = false ->
         fst (is_protected_path env target_path) = false
         /\ is_path_outside_project env target_path root = false)
  /\ (forall source_path dest_path,
         In (source_path, dest_path) (copy_pairs cmd) ->
         exists source_expanded dest_expanded,
           PosixPath.expanduser env source_path = Ok source_expanded
           /\ PosixPath.expanduser env dest_path = Ok dest_expanded
           /\ (unchecked_argument source_path = false ->
               is_tmp source_expanded = false ->
               is_path_outside_project env source_expanded root = false)
           /\ (unchecked_argument dest_path = false ->
               is_tmp dest_expanded = false ->
               fst (is_protected_path env dest_expanded) = false
               /\ is_path_outside_project env dest_expanded root = false)).
Proof.
  intros Hname Hcmd Hne Hmain root.
  rewrite (main_bash env input_data cmd Hname Hcmd Hne) in Hmain.
  cbv zeta in Hmain. fold root in Hmain.
  destruct (fst (check_bash_command cmd)) eqn:H0; [discriminate|].
  destruct (fst (check_bash_write_paths env cmd root)) eqn:H1; [discriminate|].
  destruct (check_bash_copy_operations env cmd root) as [[[] r2]|e] eqn:H2;
    try discriminate.
  split; [|split].
  - intros pattern reason Hin. unfold check_bash_command in H0.
    destruct (first_some _ _) eqn:Hf; [discriminate|].
    pose proof (proj1 (first_some_none _ _) Hf (pattern, reason) Hin) as Hp.
    cbn beta iota in Hp. now destruct (re_search pattern cmd).
  - intros desc target_path Hin Hskip.
    rewrite check_bash_write_paths_flag in H1.
    assert (Hb : target_blocks env root target_path = false).
    { destruct (target_blocks env root target_path) eqn:Hb; [|reflexivity].
      assert (Hex : existsb (fun dt => target_blocks env root (snd dt))
                      (write_targets cmd) = true)
        by (apply existsb_exists; exists (desc, target_path); auto).
      congruence. }
    unfold target_blocks in Hb. rewrite Hskip in Hb. cbn [negb andb] in Hb.
    now apply orb_false_iff in Hb.
  - intros source_path dest_path Hin.
    rewrite check_bash_copy_operations_scan in H2.
    destruct (first_some_r _ _) as [[b|]|e] eqn:Hf; try discriminate.
    pose proof (proj1 (first_some_r_none _ _) Hf (source_path, dest_path) Hin)
      as Hp.
    cbn beta iota in Hp. now apply check_copy_paths_none.
Qed.

Lemma bash_allowed_is_contained_witness :
  re_search "\bsudo\s+rm\s+"
    "cp ~/.claude/settings.json backup.json > /tmp/cp.log" = None
  /\ (skipped "/tmp/cp.log" = false ->
      fst (is_protected_path sample_env "/tmp/cp.log") = false
      /\ is_path_outside_project sample_env "/tmp/cp.log" sample_root = false).
Proof.
  destruct (bash_allowed_is_contained sample_env
              (bash_request
                 "cp ~/.claude/settings.json backup.json > /tmp/cp.log" None)
              "cp ~/.claude/settings.json backup.json > /tmp/cp.log"
              eq_refl eq_refl ltac:(discriminate)
              ltac:(vm_compute; reflexivity)) as (Hpat & Hwrite & _).
  split.
  - apply (Hpat _ "Cannot use sudo rm"). simpl. tauto.
  - apply (Hwrite "redirect output"). vm_compute. now left.
Defined.

(** ** The Copy/Move Extractor: what it passes and when it raises *)

Lemma contains_substring (c : ascii) (s : string) :
  forall start len,
    Py.contains c (substring start len s) = true -> Py.contains c s = true.
Proof.
  induction s as [|a s IH]; intros start len H.
  - destruct start, len; discriminate.
  - destruct start as [|start]; simpl in H.
    + destruct len as [|len]; [discriminate|]. simpl in H.
      apply orb_true_iff in H as [H|H]; simpl; rewrite ?H; auto.
      rewrite (IH 0 len H). apply orb_true_r.
    + simpl. rewrite (IH start len H). apply orb_true_r.
Qed.

Lemma expanduser_raise (env : Env) (path : string) (e : exn) :
  PosixPath.expanduser env path = Raise e ->
  Py.startswith path "~" = true /\ Py.contains Py.nul path = true.
Proof.
  unfold PosixPath.expanduser.
  destruct (Py.startswith path "~") eqn:Ht; [|discriminate].
  cbn [negb]. cbv zeta.
  set (i := match Py.find Py.sep path 1 with
            | Some i => i
            | None => String.length path
            end).
  intros H. split; [reflexivity|].
  destruct (Nat.eqb i 1).
  - destruct (environ env "HOME"); [discriminate|].
    destruct (pw_uid_dir env); discriminate.
  - destruct (Py.contains Py.nul (Py.slice path 1 i)) eqn:Hc.
    + now apply (contains_substring Py.nul path 1 (i - 1)).
    + destruct (pw_nam_dir env _); discriminate.
Qed.

(** A [cp] or [mv] whose arguments begin neither with a home shorthand nor
    with a separator is not blocked and raises nothing, whatever the
    environment and the project root. *)
Theorem copy_relative_not_blocked (env : Env) (command project_root : string) :
  (forall source_path dest_path,
      In (source_path, dest_path) (copy_pairs command) ->
      unchecked_argument source_path = true
      /\ unchecked_argument dest_path = true) ->
  check_bash_copy_operations env command project_root = Ok (false, "").
Proof.
  intros Hrel. rewrite check_bash_copy_operations_scan.
  rewrite (proj2 (first_some_r_none _ _)); [reflexivity|].
  intros [s d] Hin. destruct (Hrel s d Hin) as [Hs Hd].
  unfold unchecked_argument in Hs, Hd.
  apply negb_true_iff in Hs, Hd.
  pose proof (proj1 (orb_false_iff _ _) Hs) as [Hs1 _].
  pose proof (proj1 (orb_false_iff _ _) Hd) as [Hd1 _].
  unfold check_copy_paths.
  rewrite (expanduser_plain env s Hs1), (expanduser_plain env d Hd1).
  cbn [bind]. now rewrite Hs, Hd.
Qed.

Lemma copy_relative_not_blocked_witness :
  check_bash_copy_operations sample_env
    "cp -r ../../etc/shadow leak.txt && mv leak.txt ../../tmp/" "/"
  = Ok (false, "").
Proof.
  apply copy_relative_not_blocked.
  intros source_path dest_path Hin.
  replace (copy_pairs
             "cp -r ../../etc/shadow leak.txt && mv leak.txt ../../tmp/")
    with [("../../etc/shadow", "leak.txt"); ("leak.txt", "../../tmp/")]
    in Hin by (vm_compute; reflexivity).
  destruct Hin as [[= <- <-]|[[= <- <-]|[]]]; split; reflexivity.
Defined.

(** ** The texts of the groups are pieces of the command *)

Section Pieces.
Import Re.

Lemma lookup_set_group_eq (n m : nat) (text : string)
    (gs : list (nat * string)) :
  lookup m (set_group n text gs) =
    if Nat.eqb n m then Some text else lookup m gs.
Proof.
  induction gs as [|[i t] gs IH]; simpl.
  - now destruct (Nat.eqb n m).
  - destruct (Nat.eqb_spec i n) as [->|Hin]; simpl.
    + now destruct (Nat.eqb n m).
    + destruct (Nat.eqb_spec i m) as [->|Him].
      * destruct (Nat.eqb_spec n m); [congruence|reflexivity].
      * exact IH.
Qed.

Lemma substring_prefix (s : string) (len : nat) :
  exists b, s = substring 0 len s ++ b.
Proof.
  revert len. induction s as [|a s IH]; intros [|len]; simpl;
    try (eexists; reflexivity).
  destruct (IH len) as [b Hb]. exists b. now rewrite <- Hb.
Qed.

(** A property of positions kept by consuming a character and by closing
    a group is kept by matching. *)
Section Preserved.
Variable ignorecase : bool.
Variable A : Type.
Variable P : mstate -> Prop.
Hypothesis P_eat :
  forall st c s', rest st = String c s' -> P st ->
    P {| before := Some c; rest := s'; groups := groups st |}.
Hypothesis P_close :
  forall n st st', P st -> P st' -> P (close_group n st st').

Lemma eat_preserves (p : ascii -> bool) (st : mstate)
    (k : mstate -> option A) (a : A) :
  P st -> eat p st k = Some a -> exists st', P st' /\ k st' = Some a.
Proof.
  unfold eat. intros HP.
  destruct (rest st) as [|c s'] eqn:E; [discriminate|].
  destruct (p c); [|discriminate]. intros H. eauto.
Qed.

Lemma repeat_greedy_preserves
    (body : mstate -> (mstate -> option A) -> option A)
    (k : mstate -> option A) (a : A) :
  (forall st c, P st -> body st c = Some a ->
                exists st', P st' /\ c st' = Some a) ->
  forall fuel st,
    P st -> repeat_greedy body k fuel st = Some a ->
    exists st', P st' /\ k st' = Some a.
Proof.
  intros Hbody. induction fuel as [|fuel IH]; intros st HP H; simpl in H.
  - eauto.
  - apply or_else_some in H as [H|H]; [|eauto].
    apply Hbody in H as (x & HPx & Hx); [|assumption].
    destruct (progress st x); [eauto|discriminate].
Qed.

Lemma run_preserves (r : regex) :
  forall (st : mstate) (k : mstate -> option A) (a : A),
    P st -> run ignorecase r st k = Some a ->
    exists st', P st' /\ k st' = Some a.
Proof.
  induction r as [|c| | |negate items| |r1 IH1 r2 IH2|r1 IH1 r2 IH2
                 |r IH|r IH|r IH|n r IH];
    intros st k a HP H; cbn [run] in H;
    try (now apply (eat_preserves _ st k a HP H)).
  - eauto.
  - destruct (at_boundary st); [eauto|discriminate].
  - apply IH1 in H as (x & HPx & Hx); eauto.
  - apply or_else_some in H as [H|H]; eauto.
  - apply (repeat_greedy_preserves (run ignorecase r) k a) in H; eauto.
  - apply IH in H as (x & HPx & Hx); [|assumption].
    apply (repeat_greedy_preserves (run ignorecase r) k a) in Hx; eauto.
  - apply or_else_some in H as [H|H]; eauto.
  - apply IH in H as (x & HPx & Hx); eauto.
Qed.

End Preserved.

(** The position lies in [text] and every group closed so far is a piece
    of [text]. *)
Definition inside (text : string) (st : mstate) : Prop :=
  (exists pre, text = pre ++ rest st)
  /\ forall n t, lookup n (groups st) = Some t -> piece_of t text.

Lemma inside_eat (text : string) (st : mstate) (c : ascii) (s' : string) :
  rest st = String c s' -> inside text st ->
  inside text {| before := Some c; rest := s'; groups := groups st |}.
Proof.
  intros E [[pre Hpre] Hg]. split; [|exact Hg].
  exists (pre ++ String c ""). simpl. rewrite Hpre, E.
  now rewrite append_assoc.
Qed.

Lemma inside_close (text : string) (n : nat) (st st' : mstate) :
  inside text st -> inside text st' -> inside text (close_group n st st').
Proof.
  intros [[pre Hpre] _] [Hsuf Hg]. split; [exact Hsuf|].
  intros m t. simpl. rewrite lookup_set_group_eq.
  destruct (Nat.eqb n m); [|apply Hg].
  intros [= <-].
  destruct (substring_prefix (rest st)
              (String.length (rest st) - String.length (rest st')))
    as [b Hb].
  exists pre, b. now rewrite <- Hb.
Qed.

Lemma match_at_inside (ignorecase : bool) (r : regex) (text pre : string)
    (b : option ascii) (s : string) (m : match_obj) :
  text = pre ++ s ->
  match_at ignorecase r b s = Some m ->
  inside text (m_end m) /\ m_groups m = groups (m_end m).
Proof.
  intros Htext H. unfold match_at in H.
  apply (run_preserves ignorecase match_obj (inside text)
           (inside_eat text) (inside_close text)) in H
    as (st' & HP & Hk).
  - injection Hk as <-. auto.
  - split; [now exists pre|]. intros n t. discriminate.
Qed.

Lemma search_from_inside (ignorecase : bool) (r : regex) (text : string) :
  forall s pre b m,
    text = pre ++ s ->
    search_from ignorecase r b s = Some m ->
    inside text (m_end m) /\ m_groups m = groups (m_end m).
Proof.
  induction s as [|a s IH]; intros pre b m Htext H; cbn [search_from] in H.
  - destruct (match_at ignorecase r b "") as [m'|] eqn:E; [|discriminate].
    injection H as <-. exact (match_at_inside _ _ _ _ _ _ _ Htext E).
  - destruct (match_at ignorecase r b (String a s)) as [m'|] eqn:E.
    + injection H as <-. exact (match_at_inside _ _ _ _ _ _ _ Htext E).
    + apply (IH (pre ++ String a "") (Some a) m); [|assumption].
      rewrite Htext. now rewrite append_assoc.
Qed.

Lemma finditer_from_inside (ignorecase : bool) (r : regex) (text : string) :
  forall fuel s pre b m,
    text = pre ++ s ->
    In m (finditer_from fuel ignorecase r b s) ->
    inside text (m_end m) /\ m_groups m = groups (m_end m).
Proof.
  induction fuel as [|fuel IH]; intros s pre b m Htext H; simpl in H;
    [contradiction|].
  destruct (search_from ignorecase r b s) as [m'|] eqn:E; [|contradiction].
  pose proof (search_from_inside ignorecase r text s pre b m' Htext E)
    as [[[pre' Hpre'] Hg] Hm'].
  destruct H as [<-|H]; [split; [split; eauto|assumption]|].
  destruct (Nat.ltb _ _);
    [exact (IH _ pre' (before (m_end m')) m Hpre' H)|].
  destruct (rest (m_end m')) as [|a s'] eqn:Er; [contradiction|].
  apply (IH s' (pre' ++ String a "") (Some a) m); [|assumption].
  rewrite Hpre'. now rewrite append_assoc.
Qed.

End Pieces.

Lemma re_finditer_pieces (pattern text : string) (m : Re.match_obj) (n : nat) :
  In m (re_finditer pattern text) -> piece_of (Re.group m n) text.
Proof.
  unfold re_finditer.
  destruct (ReParse.compile pattern) as [r|]; [|contradiction].
  intros H.
  apply (finditer_from_inside true r text _ text "" None m eq_refl) in H
    as [[_ Hg] Hm].
  unfold Re.group. rewrite Hm.
  destruct (Re.lookup n (Re.groups (Re.m_end m))) as [t|] eqn:E.
  - exact (Hg n t E).
  - exists "", text. reflexivity.
Qed.

Lemma contains_append (c : ascii) (a b : string) :
  Py.contains c (a ++ b) = Py.contains c a || Py.contains c b.
Proof.
  induction a as [|x a IH]; simpl; [reflexivity|].
  now rewrite IH, orb_assoc.
Qed.

Lemma contains_piece (c : ascii) (t text : string) :
  piece_of t text -> Py.contains c t = true -> Py.contains c text = true.
Proof.
  intros (a & b & ->) H. rewrite !contains_append, H.
  now rewrite orb_true_r.
Qed.



(** On a command of the 7-bit range, [check_bash_copy_operations] raises
    only when an argument of a [cp] or [mv] it visits begins with a home
    shorthand and holds a null character, hence only on a command that
    holds a null character: what it raises comes from
    [os.path.expanduser], which it calls outside any [try] block. *)
Theorem copy_check_raises_only_on_nul (env : Env)
    (command project_root : string) (e : exn) :
  seven_bit command = true ->
  check_bash_copy_operations env command project_root = Raise e ->
  Py.contains Py.nul command = true
  /\ exists source_path dest_path path,
       In (source_path, dest_path) (copy_pairs command)
       /\ (path = source_path \/ path = dest_path)
       /\ PosixPath.expanduser env path = Raise e
       /\ Py.startswith path "~" = true
       /\ Py.contains Py.nul path = true.
Proof.
  intros _ Hcopy.
  rewrite check_bash_copy_operations_scan in Hcopy.
  destruct (first_some_r _ _) as [o|e'] eqn:Hf; [discriminate|].
  injection Hcopy as ->.
  apply first_some_r_raise in Hf as ([s d] & Hin & Hraise).
  assert (Hpath : exists path,
             (path = s \/ path = d)
             /\ PosixPath.expanduser env path = Raise e).
  { unfold check_copy_paths in Hraise.
    destruct (PosixPath.expanduser env s) as [s'|es] eqn:Hs.
    - destruct (PosixPath.expanduser env d) as [d'|ed] eqn:Hd.
      + exfalso. cbn [bind] in Hraise.
        destruct (if _ || _ then _ else _); [discriminate|].
        destruct (Py.startswith d "~" || Py.startswith d "/");
          [|discriminate].
        destruct (is_tmp d'); [discriminate|].
        destruct (fst (is_protected_path env d')); [discriminate|].
        destruct (is_path_outside_project env d' project_root); discriminate.
      + cbn [bind] in Hraise. injection Hraise as ->. exists d. auto.
    - cbn [bind] in Hraise. injection Hraise as ->. exists s. auto. }
  destruct Hpath as (path & Hwhich & Hexp).
  destruct (expanduser_raise env path e Hexp) as [Htilde Hnul].
  split.
  - apply (contains_piece Py.nul path command); [|assumption].
    unfold copy_pairs in Hin.
    apply in_flat_map in Hin as (pattern & _ & Hin).
    apply in_map_iff in Hin as (m & [= <- <-] & Hm).
    destruct Hwhich as [-> | ->]; now apply (re_finditer_pieces pattern).
  - exists s, d, path. auto.
Qed.

Lemma copy_check_raises_only_on_nul_witness :
  Py.contains Py.nul ("cp " ++ unresolvable_path ++ " backup") = true
  /\ exists source_path dest_path path,
       In (source_path, dest_path)
         (copy_pairs ("cp " ++ unresolvable_path ++ " backup"))
       /\ (path = source_path \/ path = dest_path)
       /\ PosixPath.expanduser sample_env path = Raise ValueError
       /\ Py.startswith path "~" = true
       /\ Py.contains Py.nul path = true.
Proof.
  apply (copy_check_raises_only_on_nul sample_env
           ("cp " ++ unresolvable_path ++ " backup") sample_root ValueError).
  - vm_compute. reflexivity.
  - vm_compute. reflexivity.
Defined.

(** ** Text before a dangerous command *)

Section Context.
Import Re.

Section SameSide.
Variable ignorecase : bool.
Variables A A' : Type.
Variable Q : A -> A' -> Prop.




End SameSide.



End Context.



(** ** Flags and reasons *)

Lemma first_some_r_from {A B : Type} (f : A -> result (option B))
    (l : list A) (b : B) :
  first_some_r f l = Ok (Some b) -> exists x, In x l /\ f x = Ok (Some b).
Proof.
  induction l as [|y l IH]; simpl; [discriminate|].
  destruct (f y) as [[b'|]|e] eqn:Hy; simpl.
  - intros [= <-]. exists y. auto.
  - intros H. destruct (IH H) as (x & Hx & Hf). exists x. auto.
  - discriminate.
Qed.

Lemma check_bash_command_reason (c reason : string) :
  check_bash_command c = (true, reason) -> reason <> "".
Proof.
  unfold check_bash_command.
  destruct (first_some _ _) as [r|] eqn:Hfirst; [|discriminate].
  intros [= <-].
  apply first_some_from in Hfirst as ([pattern reason'] & Hin & Hx).
  destruct (re_search pattern c); [|discriminate].
  injection Hx as <-. exact (dangerous_reasons_not_empty _ _ Hin).
Qed.

Lemma check_bash_write_paths_reason (env : Env)
    (command project_root reason : string) :
  check_bash_write_paths env command project_root = (true, reason) ->
  reason <> "".
Proof.
  rewrite check_bash_write_paths_scan.
  destruct (first_some _ _) as [r|] eqn:Hfirst; [|discriminate].
  intros [= <-].
  apply first_some_from in Hfirst as ([d t] & _ & Hx).
  rewrite check_write_target_blocks in Hx.
  destruct (target_blocks env project_root t); [|discriminate].
  injection Hx as <-.
  now destruct (fst (is_protected_path env t)).
Qed.

Lemma check_copy_paths_reason (env : Env)
    (project_root source_path dest_path reason : string) :
  check_copy_paths env project_root source_path dest_path = Ok (Some reason) ->
  reason = copy_from_reason source_path
  \/ reason = copy_protected_reason dest_path
  \/ reason = copy_to_reason dest_path.
Proof.
  unfold check_copy_paths.
  destruct (PosixPath.expanduser env source_path) as [s'|e]; [|discriminate].
  destruct (PosixPath.expanduser env dest_path) as [d'|e]; [|discriminate].
  cbn [bind].
  destruct (if _ || _ then _ else _) as [r|] eqn:Hs.
  - intros [= <-]. left. revert Hs.
    destruct (_ || _); [|discriminate].
    destruct (is_tmp s'); [discriminate|].
    destruct (is_path_outside_project env s' project_root); [|discriminate].
    now intros [= <-].
  - clear Hs.
    destruct (Py.startswith dest_path "~" || Py.startswith dest_path "/");
      [|discriminate].
    destruct (is_tmp d'); [discriminate|].
    destruct (fst (is_protected_path env d')); [intros [= <-]; auto|].
    destruct (is_path_outside_project env d' project_root);
      [intros [= <-]; auto|discriminate].
Qed.

Lemma check_bash_copy_operations_reason (env : Env)
    (command project_root reason : string) :
  check_bash_copy_operations env command project_root = Ok (true, reason) ->
  reason <> "".
Proof.
  rewrite check_bash_copy_operations_scan.
  destruct (first_some_r _ _) as [[r|]|e] eqn:Hfirst; try discriminate.
  intros [= <-].
  apply first_some_r_from in Hfirst as ([s d] & _ & Hx).
  apply check_copy_paths_reason in Hx as [-> | [-> | ->]]; discriminate.
Qed.

(** Each of the four checks flags exactly when it gives a reason: a flag
    comes with a non-empty reason and no flag with the empty one. *)
Theorem flag_iff_reason (env : Env) (path command project_root : string) :
  let flagged (v : bool * string) := fst v = true <-> snd v <> "" in
  flagged (is_protected_path env path)
  /\ flagged (check_bash_command command)
  /\ flagged (check_bash_write_paths env command project_root)
  /\ forall v,
       check_bash_copy_operations env command project_root = Ok v ->
       flagged v.
Proof.
  intros flagged. unfold flagged. split; [|split; [|split]].
  - destruct (is_protected_path_flag env path) as [-> | (d & _ & ->)];
      simpl; split; congruence || discriminate.
  - destruct (check_bash_command command) as [[] r] eqn:H; simpl.
    + apply check_bash_command_reason in H. tauto.
    + unfold check_bash_command in H.
      destruct (first_some _ _); [discriminate|].
      injection H as <-. split; congruence.
  - destruct (check_bash_write_paths env command project_root) as [[] r] eqn:H;
      simpl.
    + apply check_bash_write_paths_reason in H. tauto.
    + unfold check_bash_write_paths in H.
      destruct (first_some _ _); [discriminate|].
      injection H as <-. split; congruence.
  - intros [[] r] H; simpl.
    + apply check_bash_copy_operations_reason in H. tauto.
    + unfold check_bash_copy_operations in H.
      destruct (first_some_r _ _) as [[b|]|e]; try discriminate.
      injection H as <-. split; congruence.
Qed.

Lemma flag_iff_reason_witness :
  fst (true, copy_from_reason "/opt/a") = true
  <-> snd (true, copy_from_reason "/opt/a") <> "".
Proof.
  apply (proj2 (proj2 (proj2 (flag_iff_reason sample_env ""
                                "cp /opt/a /opt/b > /opt/log" sample_root)))).
  vm_compute. reflexivity.
Defined.

(** Every denial of [main] is labelled.  For a Write or Edit the reason is
    the shield sign and [BLOCKED: ] followed by the classifier's reason for
    a protected root or by the sentence that quotes the path and the
    project root.  For a Bash request it is the same prefix, the non-empty
    reason of the check that flagged the command, a line break, and
    [Command: ] followed by the command. *)
Theorem denial_is_labelled (env : Env) (stdin : option hook_input)
    (reason : string) :
  main env stdin = Deny reason ->
  exists input_data,
    stdin = Some input_data
    /\ ((exists path,
           (get_default (tool_name input_data) "" = "Write"
            \/ get_default (tool_name input_data) "" = "Edit")
           /\ file_path (tool_input_of input_data) = Some path
           /\ ((exists root,
                   In root PROTECTED_DIRECTORIES
                   /\ reason
                      = "🛡️ BLOCKED: Cannot modify files in protected directory: "
                        ++ root)
               \/ reason
                  = "🛡️ BLOCKED: Cannot write to '" ++ path
                    ++ "' - path is outside project directory '"
                    ++ project_root_of env input_data ++ "'"))
        \/ (exists cmd detail,
               get_default (tool_name input_data) "" = "Bash"
               /\ command (tool_input_of input_data) = Some cmd
               /\ detail <> ""
               /\ (check_bash_command cmd = (true, detail)
                   \/ check_bash_write_paths env cmd
                        (project_root_of env input_data) = (true, detail)
                   \/ check_bash_copy_operations env cmd
                        (project_root_of env input_data) = Ok (true, detail))
               /\ reason
                  = "🛡️ BLOCKED: " ++ detail
                    ++ String "010" ("Command: " ++ cmd))).
Proof.
  unfold main. destruct stdin as [input_data|]; [|discriminate].
  intros H. exists input_data. split; [reflexivity|]. revert H.
  destruct ((get_default (tool_name input_data) "" =? "Write")
            || (get_default (tool_name input_data) "" =? "Edit")) eqn:Hname.
  { assert (Hn : get_default (tool_name input_data) "" = "Write"
                 \/ get_default (tool_name input_data) "" = "Edit")
      by (apply orb_true_iff in Hname as [H|H]; apply String.eqb_eq in H;
          auto).
    destruct (file_path (tool_input_of input_data)) as [path|] eqn:Hpath;
      cbn [get_default]; [|discriminate].
    destruct (path =? ""); [discriminate|].
    intros H. left. exists path. split; [exact Hn|]. split; [reflexivity|].
    revert H.
    destruct (is_protected_path_flag env path) as [-> | (d & Hd & ->)].
    - destruct (is_path_outside_project env path _); [|discriminate].
      intros [= <-]. right. reflexivity.
    - intros [= <-]. left. exists d. split; [exact Hd|reflexivity]. }
  destruct (get_default (tool_name input_data) "" =? "Bash") eqn:Hbash;
    [|discriminate].
  apply String.eqb_eq in Hbash.
  destruct (command (tool_input_of input_data)) as [cmd|] eqn:Hcmd;
    [|discriminate].
  cbn [get_default]. destruct (cmd =? ""); [discriminate|].
  intros H. right. exists cmd. revert H.
  destruct (check_bash_command cmd) as [[] r0] eqn:H0.
  { intros [= <-]. exists r0. split; [exact Hbash|]. split; [reflexivity|].
    split; [exact (check_bash_command_reason _ _ H0)|].
    split; [now left|reflexivity]. }
  destruct (check_bash_write_paths env cmd _) as [[] r1] eqn:H1.
  { intros [= <-]. exists r1. split; [exact Hbash|]. split; [reflexivity|].
    split; [exact (check_bash_write_paths_reason _ _ _ _ H1)|].
    split; [right; now left|reflexivity]. }
  destruct (check_bash_copy_operations env cmd _) as [[[] r2]|e] eqn:H2;
    try discriminate.
  intros [= <-]. exists r2. split; [exact Hbash|]. split; [reflexivity|].
  split; [exact (check_bash_copy_operations_reason _ _ _ _ H2)|].
  split; [right; now right|reflexivity].
Qed.

Lemma denial_is_labelled_witness :
  exists input_data,
    Some (bash_request "make 2>&1 | tee /var/log/make.log" None)
    = Some input_data
    /\ ((exists path,
           (get_default (tool_name input_data) "" = "Write"
            \/ get_default (tool_name input_data) "" = "Edit")
           /\ file_path (tool_input_of input_data) = Some path
           /\ ((exists root,
                   In root PROTECTED_DIRECTORIES
                   /\ "🛡️ BLOCKED: Cannot tee to protected path: /var/log/make.log"
                      ++ String "010" "Command: make 2>&1 | tee /var/log/make.log"
                      = "🛡️ BLOCKED: Cannot modify files in protected directory: "
                        ++ root)
               \/ "🛡️ BLOCKED: Cannot tee to protected path: /var/log/make.log"
                  ++ String "010" "Command: make 2>&1 | tee /var/log/make.log"
                  = "🛡️ BLOCKED: Cannot write to '" ++ path
                    ++ "' - path is outside project directory '"
                    ++ project_root_of sample_env input_data ++ "'"))
        \/ (exists cmd detail,
               get_default (tool_name input_data) "" = "Bash"
               /\ command (tool_input_of input_data) = Some cmd
               /\ detail <> ""
               /\ (check_bash_command cmd = (true, detail)
                   \/ check_bash_write_paths sample_env cmd
                        (project_root_of sample_env input_data) = (true, detail)
                   \/ check_bash_copy_operations sample_env cmd
                        (project_root_of sample_env input_data)
                      = Ok (true, detail))
               /\ "🛡️ BLOCKED: Cannot tee to protected path: /var/log/make.log"
                  ++ String "010" "Command: make 2>&1 | tee /var/log/make.log"
                  = "🛡️ BLOCKED: " ++ detail
                    ++ String "010" ("Command: " ++ cmd))).
Proof.
  apply (denial_is_labelled sample_env).
  vm_compute. reflexivity.
Defined.

(** ** Paths that begin with two separators *)

Lemma normpath_two_separators (rest : string) :
  Py.startswith rest "/" = false ->
  exists tail, PosixPath.normpath ("//" ++ rest) = "//" ++ tail.
Proof.
  intros H. unfold PosixPath.normpath. cbn [append String.eqb].
  rewrite !startswith_cons. cbn [Ascii.eqb Bool.eqb andb].
  rewrite !startswith_nil, H. cbn [negb andb].
  eexists. unfold Py.str_or. cbn [PosixPath.repeat_sep append String.eqb].
  reflexivity.
Qed.

Lemma two_separators_not_protected (tail : string) :
  first_protected ("//" ++ tail) PROTECTED_DIRECTORIES = (false, "").
Proof.
  unfold PROTECTED_DIRECTORIES. cbn [first_protected append].
  rewrite !startswith_cons. cbn [Ascii.eqb Bool.eqb andb orb String.eqb].
  reflexivity.
Qed.

(** A path that begins with exactly two separators is never classified as
    protected, whatever follows: [os.path.abspath] keeps the two
    separators, and no protected root begins with two.  The redirection
    [> //etc/passwd] is therefore not blocked as a protected target, only
    by the project boundary. *)
Theorem two_separators_never_protected (env : Env) (rest : string) :
  Py.startswith rest "/" = false ->
  is_protected_path env ("//" ++ rest) = (false, "")
  /\ forall project_root desc,
       check_write_target env project_root desc ("//" ++ rest) =
         if is_path_outside_project env ("//" ++ rest) project_root
         then Some (outside_reason desc ("//" ++ rest))
         else None.
Proof.
  intros H.
  assert (Hp : is_protected_path env ("//" ++ rest) = (false, "")).
  { rewrite is_protected_path_absolute by reflexivity.
    destruct (normpath_two_separators rest H) as [tail ->].
    apply two_separators_not_protected. }
  split; [exact Hp|]. intros project_root desc.
  apply check_write_target_unprotected; auto.
Qed.

Lemma two_separators_never_protected_witness :
  is_protected_path sample_env "//etc/passwd" = (false, "")
  /\ check_write_target sample_env sample_root "redirect output" "//etc/passwd"
     = Some (outside_reason "redirect output" "//etc/passwd").
Proof.
  destruct (two_separators_never_protected sample_env "etc/passwd" eq_refl)
    as [Hp Hw].
  split; [exact Hp|].
  change "//etc/passwd" with ("//" ++ "etc/passwd").
  rewrite (Hw sample_root "redirect output"). vm_compute. reflexivity.
Defined.

(** ** Relative paths *)

Lemma join2_absolute (a b : string) :
  Py.startswith a "/" = true -> Py.startswith (PosixPath.join2 a b) "/" = true.
Proof.
  intros Ha. unfold PosixPath.join2.
  destruct (Py.startswith b "/") eqn:Hb; [exact Hb|].
  destruct a as [|c a]; [discriminate|].
  rewrite startswith_cons in Ha. apply andb_true_iff in Ha as [Hc _].
  destruct ((String c a =? "") || Py.endswith (String c a) Py.sep);
    cbn [append]; now rewrite startswith_cons, Hc, startswith_nil.
Qed.

(** A relative path is resolved against the working directory of the
    process, not against the project root: both predicates answer for it
    as they answer for the path joined to [os.getcwd()], whatever project
    root they are given. *)
Theorem relative_path_resolves_against_cwd (env : Env)
    (path project_root : string) :
  Py.startswith (getcwd env) "/" = true ->
  unchecked_argument path = true ->
  let joined := PosixPath.join2 (getcwd env) path in
  resolve env path = Ok (PosixPath.normpath joined)
  /\ is_protected_path env path = is_protected_path env joined
  /\ is_path_outside_project env path project_root
     = is_path_outside_project env joined project_root.
Proof.
  intros Hcwd Hrel joined.
  unfold unchecked_argument in Hrel. apply negb_true_iff in Hrel.
  apply orb_false_iff in Hrel as [Htilde Habs].
  assert (Hres : resolve env path = Ok (PosixPath.normpath joined)).
  { unfold resolve. rewrite (expanduser_plain env path Htilde). cbn [bind].
    unfold PosixPath.abspath, PosixPath.isabs. now rewrite Habs. }
  assert (Hj : resolve env joined = Ok (PosixPath.normpath joined))
    by (apply resolve_absolute, join2_absolute, Hcwd).
  split; [exact Hres|]. split.
  - unfold is_protected_path. now rewrite Hres, Hj.
  - unfold is_path_outside_project. now rewrite Hres, Hj.
Qed.

Lemma relative_path_resolves_against_cwd_witness :
  resolve sample_env "../../../etc/hosts" = Ok "/etc/hosts"
  /\ is_protected_path sample_env "../../../etc/hosts"
     = is_protected_path sample_env "/home/user/project/../../../etc/hosts".
Proof.
  destruct (relative_path_resolves_against_cwd sample_env "../../../etc/hosts"
              "/srv/elsewhere" eq_refl eq_refl) as (Hres & Hp & _).
  split; [|exact Hp].
  rewrite Hres. vm_compute. reflexivity.
Defined.

Lemma extractor_groups_taken_witness :
  Re.lookup 1
    (Re.m_groups
       {| Re.m_groups := [(1, "out.txt")];
          Re.m_end := {| Re.before := Some "t"%char; Re.rest := "";
                         Re.groups := [(1, "out.txt")] |} |})
  = Some "out.txt".
Proof.
  apply (proj1 extractor_groups_taken ">\s*([^\s;|&><]+)" "redirect output"
           "ls > out.txt").
  - simpl. tauto.
  - vm_compute. now left.
Defined.

(** ** Resolved paths are normal *)

Lemma split_no_sep (s : string) :
  Forall (fun w => Py.contains Py.sep w = false) (Py.split Py.sep s).
Proof.
  induction s as [|a s IH]; simpl.
  - repeat constructor.
  - destruct (Ascii.eqb a Py.sep) eqn:Ha.
    + constructor; [reflexivity|exact IH].
    + destruct (Py.split Py.sep s) as [|w ws].
      * repeat constructor. simpl. now rewrite Ha.
      * inversion IH as [|? ? Hw Hws]; subst.
        constructor; [|exact Hws]. simpl. now rewrite Ha, Hw.
Qed.

Lemma Forall_removelast {A : Type} (P : A -> Prop) (l : list A) :
  Forall P l -> Forall P (removelast l).
Proof.
  induction l as [|a l IH]; intros H; simpl; [constructor|].
  inversion H; subst. destruct l; [constructor|]. constructor; auto.
Qed.

Lemma Forall_last {A : Type} (P : A -> Prop) (l : list A) (d : A) :
  l <> [] -> Forall P l -> P (last l d).
Proof.
  induction l as [|a l IH]; intros Hne H; [congruence|].
  inversion H; subst. destruct l as [|b l]; [assumption|].
  apply IH; [discriminate|assumption].
Qed.

Lemma normpath_step_clean (n : nat) (new_comps : list string) (comp : string) :
  n <> 0 ->
  Forall clean_component new_comps ->
  Py.contains Py.sep comp = false ->
  Forall clean_component (PosixPath.normpath_step n new_comps comp).
Proof.
  intros Hn Hclean Hsep. unfold PosixPath.normpath_step.
  destruct (String.eqb_spec comp ""); [assumption|].
  destruct (String.eqb_spec comp "."); [assumption|]. cbn [orb].
  destruct (String.eqb_spec comp ".." ) as [->|Hdd]; cbn [negb orb].
  - apply Nat.eqb_neq in Hn. rewrite Hn. cbn [andb orb].
    destruct new_comps as [|c cs]; [assumption|].
    destruct (String.eqb_spec (last (c :: cs) "") "..") as [Hlast|_].
    + exfalso.
      assert (Hc : clean_component (last (c :: cs) ""))
        by (apply Forall_last; [discriminate|assumption]).
      destruct Hc as (_ & _ & Hc & _). contradiction.
    + now apply Forall_removelast.
  - apply Forall_app. split; [assumption|].
    repeat constructor; assumption.
Qed.

Lemma fold_normpath_step_clean (n : nat) (comps : list string) :
  n <> 0 ->
  Forall (fun w => Py.contains Py.sep w = false) comps ->
  forall new_comps,
    Forall clean_component new_comps ->
    Forall clean_component
      (fold_left (PosixPath.normpath_step n) comps new_comps).
Proof.
  intros Hn Hsep. induction Hsep as [|c comps Hc _ IH]; intros acc Hacc;
    simpl; [assumption|].
  apply IH. now apply normpath_step_clean.
Qed.

Lemma normpath_absolute (path : string) :
  Py.startswith path "/" = true ->
  exists n comps,
    (n = 1 \/ n = 2)
    /\ Forall clean_component comps
    /\ PosixPath.normpath path
       = PosixPath.repeat_sep n ++ Py.join "/" comps.
Proof.
  intros Habs. unfold PosixPath.normpath.
  destruct path as [|a path]; [discriminate|]. cbn [String.eqb].
  rewrite Habs.
  set (n := if _ && _ then 2 else 1).
  assert (Hn : n = 1 \/ n = 2) by (subst n; destruct (_ && _); auto).
  exists n, (fold_left (PosixPath.normpath_step n)
               (Py.split Py.sep (String a path)) []).
  split; [exact Hn|]. split.
  - apply fold_normpath_step_clean; [lia|apply split_no_sep|constructor].
  - unfold Py.str_or. now destruct Hn as [-> | ->].
Qed.

(** What the predicates compare is a normal path: when the working
    directory is absolute, a path that resolves resolves to one or two
    separators followed by components joined by single separators, none of
    them empty, [.] or [..]. *)
Theorem resolved_path_is_normal (env : Env) (path abs_path : string) :
  Py.startswith (getcwd env) "/" = true ->
  resolve env path = Ok abs_path ->
  exists n comps,
    (n = 1 \/ n = 2)
    /\ Forall clean_component comps
    /\ abs_path = PosixPath.repeat_sep n ++ Py.join "/" comps.
Proof.
  intros Hcwd. unfold resolve.
  destruct (PosixPath.expanduser env path) as [p|e]; [|discriminate].
  cbn [bind]. intros [= <-]. unfold PosixPath.abspath, PosixPath.isabs.
  apply normpath_absolute.
  destruct (Py.startswith p "/") eqn:Hp; [exact Hp|].
  now apply join2_absolute.
Qed.

Lemma resolved_path_is_normal_witness :
  exists n comps,
    (n = 1 \/ n = 2)
    /\ Forall clean_component comps
    /\ "/home/user/docs/a.txt" = PosixPath.repeat_sep n ++ Py.join "/" comps.
Proof.
  apply (resolved_path_is_normal sample_env "~user/./project/..//docs/a.txt").
  - reflexivity.
  - vm_compute. reflexivity.
Defined.

(** ** The boundary check as a decision *)

(** When the path and the configuration directory resolve and neither the
    resolved configuration directory nor the resolved project root ends
    with a separator, the boundary check answers "inside" exactly for the
    paths at or under the configuration directory, under a temporary
    directory, or at or under the project root. *)
Theorem project_boundary_decision (env : Env)
    (path project_root abs_file abs_config : string) :
  resolve env path = Ok abs_file ->
  config_root env = Ok abs_config ->
  Py.endswith abs_config Py.sep = false ->
  Py.endswith (PosixPath.abspath env project_root) Py.sep = false ->
  is_path_outside_project env path project_root = false <->
  at_or_under abs_config abs_file
  \/ nested_under "/tmp" abs_file
  \/ nested_under "/private/tmp" abs_file
  \/ at_or_under (PosixPath.abspath env project_root) abs_file.
Proof.
  intros Hres Hcfg Hec Hep.
  rewrite (is_path_outside_project_resolved env path project_root abs_file
             abs_config Hres Hcfg).
  pose proof (covers_at_or_under abs_config abs_file Hec) as Hc.
  pose proof (covers_at_or_under _ abs_file Hep) as Hp.
  pose proof (is_tmp_iff abs_file) as Ht.
  destruct (covers abs_config abs_file), (is_tmp abs_file),
    (covers (PosixPath.abspath env project_root) abs_file);
    simpl; intuition congruence.
Qed.

Lemma project_boundary_decision_witness :
  is_path_outside_project sample_env "/home/user/projectX/a.txt" sample_root
    = false
  <-> at_or_under "/home/user/.claude" "/home/user/projectX/a.txt"
      \/ nested_under "/tmp" "/home/user/projectX/a.txt"
      \/ nested_under "/private/tmp" "/home/user/projectX/a.txt"
      \/ at_or_under "/home/user/project" "/home/user/projectX/a.txt".
Proof.
  apply (project_boundary_decision sample_env "/home/user/projectX/a.txt"
           sample_root "/home/user/projectX/a.txt" "/home/user/.claude");
    vm_compute; reflexivity.
Defined.
